(** * core-bundle: configuration merge, entry mapping and manifest synthesis

    A shallow embedding of [scripts/prepare/core-bundle.ts].  JavaScript
    values are a tagged union, objects are property lists kept in the
    order in which JavaScript enumerates them, and the effects of the
    driver ([build], the file system, the process exit) are an explicit
    trace of the operations it starts.

    Strings are sequences of one-byte characters and numbers are the
    integers.  What the script takes from outside (the host platform, the
    working directory, the loaded configuration, the parsed manifest,
    [sort-package-json], [JSON.stringify]) is gathered in the record
    [Host]; [build] and the file system are taken to succeed. *)

From Stdlib Require Import List String Ascii ZArith NArith Bool.
Import ListNotations.
Set Warnings "-register-all".
Open Scope string_scope.
Open Scope list_scope.

(** ** Strings *)

Definition dquote : ascii := ascii_of_nat 34.

(** [quoted s] is the text of [s] between two double quotes, the shape of
    the values of the [define] tables. *)
Definition quoted (s : string) : string :=
  String dquote (s ++ String dquote EmptyString)%string.

Definition is_digit (c : ascii) : bool :=
  let n := nat_of_ascii c in (48 <=? n)%nat && (n <=? 57)%nat.

Fixpoint digits_value (s : string) (acc : N) : option N :=
  match s with
  | EmptyString => Some acc
  | String c r =>
      if is_digit c
      then digits_value r (acc * 10 + (N_of_ascii c - 48))%N
      else None
  end.

(** A property key is an array index when it is the canonical decimal
    text of an integer below 2^32 - 1; JavaScript lists such keys first,
    in ascending order. *)
Definition array_index (k : string) : option N :=
  match k with
  | EmptyString => None
  | String c r =>
      if Ascii.eqb c "0"
      then match r with EmptyString => Some 0%N | _ => None end
      else match digits_value k 0 with
           | Some n => if (n <? 4294967295)%N then Some n else None
           | None => None
           end
  end.

Fixpoint nat_digits (fuel n : nat) (acc : string) : string :=
  match fuel with
  | O => acc
  | S fuel' =>
      let acc' := String (ascii_of_nat (48 + Nat.modulo n 10)) acc in
      match Nat.div n 10 with
      | O => acc'
      | q => nat_digits fuel' q acc'
      end
  end.

(** Decimal text of a natural number, as [String(i)] gives it. *)
Definition nat_to_string (n : nat) : string := nat_digits (S n) n EmptyString.

Definition Z_to_string (z : Z) : string :=
  match z with
  | Z0 => "0"
  | Zpos p => nat_to_string (Pos.to_nat p)
  | Zneg p => ("-" ++ nat_to_string (Pos.to_nat p))%string
  end.

(** ** JavaScript values *)

(** [VNum] holds the integer-valued numbers; [VFun] is a function object
    the model does not look into, known by its name. *)
Inductive value : Type :=
| VUndefined
| VNull
| VBool (b : bool)
| VNum (n : Z)
| VStr (s : string)
| VArr (items : list value)
| VObj (props : list (string * value))
| VFun (name : string).

Definition obj : Type := list (string * value).

Definition typeof (v : value) : string :=
  match v with
  | VUndefined => "undefined"
  | VNull => "object"
  | VBool _ => "boolean"
  | VNum _ => "number"
  | VStr _ => "string"
  | VArr _ => "object"
  | VObj _ => "object"
  | VFun _ => "function"
  end.

Definition Array_isArray (v : value) : bool :=
  match v with VArr _ => true | _ => false end.

(** ToBoolean. *)
Definition truthy (v : value) : bool :=
  match v with
  | VUndefined | VNull => false
  | VBool b => b
  | VNum n => negb (n =? 0)%Z
  | VStr s => negb (String.eqb s EmptyString)
  | VArr _ | VObj _ | VFun _ => true
  end.

(** ** Objects as ordered property lists *)

Definition obj_keys (o : obj) : list string := map fst o.
Definition obj_values (o : obj) : list value := map snd o.

Fixpoint obj_get_own (o : obj) (k : string) : option value :=
  match o with
  | [] => None
  | (k', v) :: r => if String.eqb k' k then Some v else obj_get_own r k
  end.

Definition obj_has_own (o : obj) (k : string) : bool :=
  match obj_get_own o k with Some _ => true | None => false end.

(** Overwriting an existing property keeps its place. *)
Fixpoint obj_replace (o : obj) (k : string) (v : value) : obj :=
  match o with
  | [] => []
  | (k', v') :: r =>
      if String.eqb k' k then (k', v) :: r else (k', v') :: obj_replace r k v
  end.

(** A new array-index key goes before the first key that is not an index
    or is a larger index. *)
Fixpoint obj_insert_index (o : obj) (n : N) (k : string) (v : value) : obj :=
  match o with
  | [] => [(k, v)]
  | (k', v') :: r =>
      match array_index k' with
      | Some n' =>
          if (n <? n')%N then (k, v) :: o
          else (k', v') :: obj_insert_index r n k v
      | None => (k, v) :: o
      end
  end.

(** [o[k] = v] on an ordinary object. *)
Definition obj_set (o : obj) (k : string) (v : value) : obj :=
  if obj_has_own o k then obj_replace o k v
  else match array_index k with
       | Some n => obj_insert_index o n k v
       | None => o ++ [(k, v)]
       end.

Fixpoint indexed (i : nat) (l : list value) : obj :=
  match l with
  | [] => []
  | v :: r => (nat_to_string i, v) :: indexed (S i) r
  end.

Fixpoint chars (s : string) : list value :=
  match s with
  | EmptyString => []
  | String c r => VStr (String c EmptyString) :: chars r
  end.

(** The own enumerable string-keyed properties of a value, as object
    spread and [Object.values] see them. *)
Definition own_enumerable (v : value) : obj :=
  match v with
  | VObj o => o
  | VArr l => indexed 0 l
  | VStr s => indexed 0 (chars s)
  | _ => []
  end.

Definition Object_values (v : value) : list value := obj_values (own_enumerable v).

(** [{...target, ...source}]: every own key of the source is read from
    the source and defined on the target, in the source's key order. *)
Definition spread (target : obj) (source : value) : obj :=
  let src := own_enumerable source in
  fold_left
    (fun acc k =>
       match obj_get_own src k with
       | Some v => obj_set acc k v
       | None => acc
       end)
    (obj_keys src) target.

(** ** Option merge *)

Definition mergeOptions (config overrides defaults : value) : value :=
  VObj (spread (spread (spread [] defaults) config) overrides).

(** The effective value of a field is the first of: the override's, the
    descriptor's, the default's. *)
Definition layered (overrides config defaults : obj) (k : string) : option value :=
  match obj_get_own overrides k with
  | Some v => Some v
  | None =>
      match obj_get_own config k with
      | Some v => Some v
      | None => obj_get_own defaults k
      end
  end.

(** ** Node's [path] module

    [parse] and [join] are the ones of the host platform: Node binds
    [path] to [path.posix] or to [path.win32].  Both are written here
    after Node's [lib/path.js], index loops included, on strings of
    one-byte characters. *)

Definition slen (s : string) : Z := Z.of_nat (String.length s).

Definition charCodeAt (s : string) (i : Z) : option ascii :=
  if (i <? 0)%Z then None else String.get (Z.to_nat i) s.

(** [s.slice(a, b)] for [0 <= a]. *)
Definition slice (s : string) (a b : Z) : string :=
  String.substring (Z.to_nat a) (Z.to_nat (b - a)) s.

Definition slice_from (s : string) (a : Z) : string := slice s a (slen s).

Definition char_is (c : ascii) (o : option ascii) : bool :=
  match o with Some c' => Ascii.eqb c c' | None => false end.

Definition CHAR_FORWARD_SLASH : ascii := "/".
Definition CHAR_BACKWARD_SLASH : ascii := "\".
Definition CHAR_DOT : ascii := ".".
Definition CHAR_COLON : ascii := ":".

Definition isPathSeparator (c : ascii) : bool :=
  Ascii.eqb c CHAR_FORWARD_SLASH || Ascii.eqb c CHAR_BACKWARD_SLASH.

Definition isPosixPathSeparator (c : ascii) : bool :=
  Ascii.eqb c CHAR_FORWARD_SLASH.

Definition isWindowsDeviceRoot (c : ascii) : bool :=
  let n := nat_of_ascii c in
  ((65 <=? n)%nat && (n <=? 90)%nat) || ((97 <=? n)%nat && (n <=? 122)%nat).

Definition opt_test (f : ascii -> bool) (o : option ascii) : bool :=
  match o with Some c => f c | None => false end.

(** [s.lastIndexOf(c)], -1 when [c] does not occur. *)
Fixpoint lastIndexOf_from (s : string) (c : ascii) (i best : Z) : Z :=
  match s with
  | EmptyString => best
  | String c' r =>
      lastIndexOf_from r c (i + 1) (if Ascii.eqb c c' then i else best)
  end.

Definition lastIndexOf (s : string) (c : ascii) : Z := lastIndexOf_from s c 0 (-1).

Definition indices (lo hi : Z) : list Z :=
  map (fun n => lo + Z.of_nat n)%Z (seq 0 (Z.to_nat (hi - lo))).

Record ns_state : Type := mk_ns {
  ns_res : string;
  ns_lastSegmentLength : Z;
  ns_lastSlash : Z;
  ns_dots : Z;
  ns_code : ascii;
  ns_break : bool
}.

(** One turn of the loop of [normalizeString]. *)
Definition normalizeString_step (path : string) (allowAboveRoot : bool)
    (separator : ascii) (isSep : ascii -> bool) (st : ns_state) (i : Z) : ns_state :=
  if ns_break st then st else
  let res := ns_res st in
  let lastSlash := ns_lastSlash st in
  let dots := ns_dots st in
  let next :=
    if (i <? slen path)%Z then charCodeAt path i
    else if isSep (ns_code st) then None
    else Some CHAR_FORWARD_SLASH in
  match next with
  | None => mk_ns res (ns_lastSegmentLength st) lastSlash dots (ns_code st) true
  | Some code =>
      if isSep code then
        if (lastSlash =? i - 1)%Z || (dots =? 1)%Z then
          mk_ns res (ns_lastSegmentLength st) i 0 code false
        else if (dots =? 2)%Z then
          let above :=
            if allowAboveRoot
            then mk_ns (if (0 <? slen res)%Z
                        then res ++ String separator ".."
                        else "..")%string 2 i 0 code false
            else mk_ns res (ns_lastSegmentLength st) i 0 code false in
          if (slen res <? 2)%Z
             || negb (ns_lastSegmentLength st =? 2)%Z
             || negb (char_is CHAR_DOT (charCodeAt res (slen res - 1)))
             || negb (char_is CHAR_DOT (charCodeAt res (slen res - 2)))
          then
            if (2 <? slen res)%Z then
              let lastSlashIndex := lastIndexOf res separator in
              if (lastSlashIndex =? -1)%Z
              then mk_ns EmptyString 0 i 0 code false
              else
                let res' := slice res 0 lastSlashIndex in
                mk_ns res' (slen res' - 1 - lastIndexOf res' separator) i 0 code false
            else if negb (slen res =? 0)%Z then
              mk_ns EmptyString 0 i 0 code false
            else above
          else above
        else
          let seg := slice path (lastSlash + 1) i in
          mk_ns (if (0 <? slen res)%Z
                 then res ++ String separator seg
                 else seg)%string
                (i - lastSlash - 1) i 0 code false
      else if Ascii.eqb code CHAR_DOT && negb (dots =? -1)%Z then
        mk_ns res (ns_lastSegmentLength st) lastSlash (dots + 1) code false
      else
        mk_ns res (ns_lastSegmentLength st) lastSlash (-1) code false
  end.

(** Resolves [.] and [..] segments. *)
Definition normalizeString (path : string) (allowAboveRoot : bool)
    (separator : ascii) (isSep : ascii -> bool) : string :=
  ns_res
    (fold_left (normalizeString_step path allowAboveRoot separator isSep)
       (indices 0 (slen path + 1))
       (mk_ns EmptyString 0 (-1) 0 zero false)).

Record ParsedPath : Type := mk_parsed {
  p_root : string;
  p_dir : string;
  p_base : string;
  p_ext : string;
  p_name : string
}.

Record parse_state : Type := mk_ps {
  ps_startDot : Z;
  ps_startPart : Z;
  ps_end : Z;
  ps_matchedSlash : bool;
  ps_preDotState : Z;
  ps_break : bool
}.

(** One turn of the backward loop of [parse] that finds the last
    segment and its extension. *)
Definition parse_step (path : string) (isSep : ascii -> bool)
    (st : parse_state) (i : Z) : parse_state :=
  if ps_break st then st else
  match charCodeAt path i with
  | None => st
  | Some code =>
      if isSep code then
        if negb (ps_matchedSlash st)
        then mk_ps (ps_startDot st) (i + 1) (ps_end st) (ps_matchedSlash st)
                   (ps_preDotState st) true
        else st
      else
        let matchedSlash := if (ps_end st =? -1)%Z then false else ps_matchedSlash st in
        let end_ := if (ps_end st =? -1)%Z then (i + 1)%Z else ps_end st in
        if Ascii.eqb code CHAR_DOT then
          if (ps_startDot st =? -1)%Z
          then mk_ps i (ps_startPart st) end_ matchedSlash (ps_preDotState st) false
          else mk_ps (ps_startDot st) (ps_startPart st) end_ matchedSlash 1 false
        else if negb (ps_startDot st =? -1)%Z
        then mk_ps (ps_startDot st) (ps_startPart st) end_ matchedSlash (-1) false
        else mk_ps (ps_startDot st) (ps_startPart st) end_ matchedSlash
                   (ps_preDotState st) false
  end.

(** Runs [i] from [len - 1] down to [lo]. *)
Definition parse_scan (path : string) (isSep : ascii -> bool) (lo startPart : Z)
  : parse_state :=
  fold_left (parse_step path isSep) (rev (indices lo (slen path)))
    (mk_ps (-1) startPart (-1) true 0 false).

Definition no_extension (st : parse_state) : bool :=
  (ps_startDot st =? -1)%Z
  || (ps_preDotState st =? 0)%Z
  || ((ps_preDotState st =? 1)%Z
      && (ps_startDot st =? ps_end st - 1)%Z
      && (ps_startDot st =? ps_startPart st + 1)%Z).

Module posix.

Definition sep : string := "/".

Definition normalize (path : string) : string :=
  if (slen path =? 0)%Z then "." else
  let isAbsolute := char_is CHAR_FORWARD_SLASH (charCodeAt path 0) in
  let trailingSeparator :=
    char_is CHAR_FORWARD_SLASH (charCodeAt path (slen path - 1)) in
  let path' := normalizeString path (negb isAbsolute) "/" isPosixPathSeparator in
  if (slen path' =? 0)%Z then
    if isAbsolute then "/" else if trailingSeparator then "./" else "."
  else
    let path'' := (if trailingSeparator then path' ++ "/" else path')%string in
    (if isAbsolute then "/" ++ path'' else path'')%string.

Definition join (args : list string) : string :=
  let joined :=
    fold_left
      (fun (j : option string) arg =>
         if (0 <? slen arg)%Z then
           match j with
           | None => Some arg
           | Some j' => Some (j' ++ "/" ++ arg)%string
           end
         else j)
      args None in
  match joined with
  | None => "."
  | Some j => normalize j
  end.

Definition parse (path : string) : ParsedPath :=
  if (slen path =? 0)%Z
  then mk_parsed EmptyString EmptyString EmptyString EmptyString EmptyString
  else
    let isAbsolute := char_is CHAR_FORWARD_SLASH (charCodeAt path 0) in
    let root := if isAbsolute then "/" else EmptyString in
    let start := if isAbsolute then 1%Z else 0%Z in
    let st := parse_scan path isPosixPathSeparator start 0 in
    let startPart := ps_startPart st in
    let dir :=
      if (0 <? startPart)%Z then slice path 0 (startPart - 1)
      else if isAbsolute then "/" else EmptyString in
    if (ps_end st =? -1)%Z
    then mk_parsed root dir EmptyString EmptyString EmptyString
    else
      let start' := if (startPart =? 0)%Z && isAbsolute then 1%Z else startPart in
      if no_extension st
      then mk_parsed root dir (slice path start' (ps_end st)) EmptyString
                     (slice path start' (ps_end st))
      else mk_parsed root dir
                     (slice path start' (ps_end st))
                     (slice path (ps_startDot st) (ps_end st))
                     (slice path start' (ps_startDot st)).

End posix.

(** First index from [j] on at which [p] fails, or the length. *)
Fixpoint skip_while_fuel (fuel : nat) (p : ascii -> bool) (s : string) (j : Z) : Z :=
  match fuel with
  | O => j
  | S fuel' =>
      if (j <? slen s)%Z && opt_test p (charCodeAt s j)
      then skip_while_fuel fuel' p s (j + 1)
      else j
  end.

Definition skip_while (p : ascii -> bool) (s : string) (j : Z) : Z :=
  skip_while_fuel (String.length s) p s j.

Definition notSep (c : ascii) : bool := negb (isPathSeparator c).

Module win32.

Definition sep : string := "\".

Inductive root_match : Type :=
| RootOnly (text : string)
| Root (device : option string) (rootEnd : Z) (isAbsolute : bool).

(** The root of [normalize]: a UNC share, a drive, or one separator. *)
Definition normalize_root (path : string) : root_match :=
  let len := slen path in
  if opt_test isPathSeparator (charCodeAt path 0) then
    if opt_test isPathSeparator (charCodeAt path 1) then
      let j1 := skip_while notSep path 2 in
      if (j1 <? len)%Z && negb (j1 =? 2)%Z then
        let firstPart := slice path 2 j1 in
        let j2 := skip_while isPathSeparator path j1 in
        if (j2 <? len)%Z && negb (j2 =? j1)%Z then
          let j3 := skip_while notSep path j2 in
          if (j3 =? len)%Z then
            RootOnly ("\\" ++ firstPart ++ "\" ++ slice_from path j2 ++ "\")%string
          else if negb (j3 =? j2)%Z then
            Root (Some ("\\" ++ firstPart ++ "\" ++ slice path j2 j3)%string) j3 true
          else Root None 0 true
        else Root None 0 true
      else Root None 0 true
    else Root None 1 true
  else if opt_test isWindowsDeviceRoot (charCodeAt path 0)
          && char_is CHAR_COLON (charCodeAt path 1) then
    if (2 <? len)%Z && opt_test isPathSeparator (charCodeAt path 2)
    then Root (Some (slice path 0 2)) 3 true
    else Root (Some (slice path 0 2)) 2 false
  else Root None 0 false.

Definition normalize (path : string) : string :=
  let len := slen path in
  if (len =? 0)%Z then "." else
  if (len =? 1)%Z then
    if opt_test isPosixPathSeparator (charCodeAt path 0) then "\" else path
  else
    match normalize_root path with
    | RootOnly text => text
    | Root device rootEnd isAbsolute =>
        let tail0 :=
          if (rootEnd <? len)%Z
          then normalizeString (slice_from path rootEnd) (negb isAbsolute)
                 "\" isPathSeparator
          else EmptyString in
        let tail1 :=
          if (slen tail0 =? 0)%Z && negb isAbsolute then "." else tail0 in
        let tail :=
          (if (0 <? slen tail1)%Z
              && opt_test isPathSeparator (charCodeAt path (len - 1))
           then tail1 ++ "\" else tail1)%string in
        match device with
        | None => (if isAbsolute then "\" ++ tail else tail)%string
        | Some d => (if isAbsolute then d ++ "\" ++ tail else d ++ tail)%string
        end
    end.

Definition join (args : list string) : string :=
  let joined :=
    fold_left
      (fun (j : option (string * string)) arg =>
         if (0 <? slen arg)%Z then
           match j with
           | None => Some (arg, arg)
           | Some (j', firstPart) => Some ((j' ++ "\" ++ arg)%string, firstPart)
           end
         else j)
      args None in
  match joined with
  | None => "."
  | Some (j, firstPart) =>
      let firstLen := slen firstPart in
      let sep0 := opt_test isPathSeparator (charCodeAt firstPart 0) in
      let sep1 := sep0 && (1 <? firstLen)%Z
                  && opt_test isPathSeparator (charCodeAt firstPart 1) in
      let sep2 := sep1 && (2 <? firstLen)%Z
                  && opt_test isPathSeparator (charCodeAt firstPart 2) in
      let needsReplace := negb (sep1 && (2 <? firstLen)%Z && negb sep2) in
      let slashCount0 :=
        ((if sep0 then 1 else 0) + (if sep1 then 1 else 0)
         + (if sep2 then 1 else 0))%Z in
      let j' :=
        if needsReplace then
          let slashCount := skip_while isPathSeparator j slashCount0 in
          if (2 <=? slashCount)%Z
          then ("\" ++ slice_from j slashCount)%string
          else j
        else j in
      normalize j'
  end.

Inductive parse_root : Type :=
| WholeRoot
| RootEnd (rootEnd : Z).

(** The root of [parse]. *)
Definition parse_root_of (path : string) : parse_root :=
  let len := slen path in
  if opt_test isPathSeparator (charCodeAt path 0) then
    if opt_test isPathSeparator (charCodeAt path 1) then
      let j1 := skip_while notSep path 2 in
      if (j1 <? len)%Z && negb (j1 =? 2)%Z then
        let j2 := skip_while isPathSeparator path j1 in
        if (j2 <? len)%Z && negb (j2 =? j1)%Z then
          let j3 := skip_while notSep path j2 in
          if (j3 =? len)%Z then RootEnd j3
          else if negb (j3 =? j2)%Z then RootEnd (j3 + 1)
          else RootEnd 1
        else RootEnd 1
      else RootEnd 1
    else RootEnd 1
  else if opt_test isWindowsDeviceRoot (charCodeAt path 0)
          && char_is CHAR_COLON (charCodeAt path 1) then
    if (len <=? 2)%Z then WholeRoot
    else if opt_test isPathSeparator (charCodeAt path 2) then
      if (len =? 3)%Z then WholeRoot else RootEnd 3
    else RootEnd 2
  else RootEnd 0.

Definition parse (path : string) : ParsedPath :=
  let len := slen path in
  if (len =? 0)%Z
  then mk_parsed EmptyString EmptyString EmptyString EmptyString EmptyString
  else if (len =? 1)%Z then
    if opt_test isPathSeparator (charCodeAt path 0)
    then mk_parsed path path EmptyString EmptyString EmptyString
    else mk_parsed EmptyString EmptyString path EmptyString path
  else
    match parse_root_of path with
    | WholeRoot => mk_parsed path path EmptyString EmptyString EmptyString
    | RootEnd rootEnd =>
        let root := if (0 <? rootEnd)%Z then slice path 0 rootEnd else EmptyString in
        let st := parse_scan path isPathSeparator rootEnd rootEnd in
        let startPart := ps_startPart st in
        let dir :=
          if (0 <? startPart)%Z && negb (startPart =? rootEnd)%Z
          then slice path 0 (startPart - 1)
          else root in
        if (ps_end st =? -1)%Z
        then mk_parsed root dir EmptyString EmptyString EmptyString
        else if no_extension st
        then mk_parsed root dir (slice path startPart (ps_end st)) EmptyString
                       (slice path startPart (ps_end st))
        else mk_parsed root dir
                       (slice path startPart (ps_end st))
                       (slice path (ps_startDot st) (ps_end st))
                       (slice path startPart (ps_startDot st))
    end.

End win32.

(** The host platform decides which implementation [path] is. *)
Inductive platform : Type := Posix | Win32.

Definition join (host : platform) (args : list string) : string :=
  match host with
  | Posix => posix.join args
  | Win32 => win32.join args
  end.

Definition parse (host : platform) (path : string) : ParsedPath :=
  match host with
  | Posix => posix.parse path
  | Win32 => win32.parse path
  end.

(** [s.replace(pattern, replacement)] with a string pattern and a
    replacement free of [$]: the first occurrence only. *)
Definition replace (s pattern replacement : string) : string :=
  match String.index 0 pattern s with
  | Some i =>
      (String.substring 0 i s ++ replacement
       ++ String.substring (i + String.length pattern)
            (String.length s - (i + String.length pattern)) s)%string
  | None => s
  end.

(** ** Property reads through the prototype chain *)

(** The data properties every ordinary object inherits from
    [Object.prototype]; each is a built-in function. *)
Definition Object_prototype : obj :=
  [ ("constructor", VFun "Object");
    ("__defineGetter__", VFun "__defineGetter__");
    ("__defineSetter__", VFun "__defineSetter__");
    ("hasOwnProperty", VFun "hasOwnProperty");
    ("__lookupGetter__", VFun "__lookupGetter__");
    ("__lookupSetter__", VFun "__lookupSetter__");
    ("isPrototypeOf", VFun "isPrototypeOf");
    ("propertyIsEnumerable", VFun "propertyIsEnumerable");
    ("toString", VFun "toString");
    ("valueOf", VFun "valueOf");
    ("toLocaleString", VFun "toLocaleString") ].

(** [o[k]] on an ordinary object: the own property, else the inherited
    one ([__proto__] reads the prototype itself), else [undefined]. *)
Definition js_get (o : obj) (k : string) : value :=
  match obj_get_own o k with
  | Some v => v
  | None =>
      if String.eqb k "__proto__" then VObj Object_prototype
      else match obj_get_own Object_prototype k with
           | Some v => v
           | None => VUndefined
           end
  end.

(** ToString, as template literals and property keys apply it.  Objects
    are taken without a [toString] of their own; a built-in function
    prints as V8 prints it. *)
Fixpoint to_string (v : value) : string :=
  match v with
  | VUndefined => "undefined"
  | VNull => "null"
  | VBool true => "true"
  | VBool false => "false"
  | VNum n => Z_to_string n
  | VStr s => s
  | VArr l =>
      (fix join_items (l : list value) : string :=
         match l with
         | [] => EmptyString
         | x :: r =>
             let sx := match x with
                       | VUndefined | VNull => EmptyString
                       | _ => to_string x
                       end in
             match r with
             | [] => sx
             | _ => (sx ++ "," ++ join_items r)%string
             end
         end) l
  | VObj _ => "[object Object]"
  | VFun name => ("function " ++ name ++ "() { [native code] }")%string
  end.

(** ** Entries and the format tables *)

Record Entry : Type := mk_entry { file : string; format : string }.

Definition formatToType : obj :=
  [ ("cjs", VStr "require"); ("esm", VStr "module"); ("iife", VStr "module") ].

Definition formatToExt : obj :=
  [ ("cjs", VStr ".js"); ("esm", VStr ".mjs"); ("iife", VStr ".js") ].

(** The tags the tables know. *)
Definition known_formats : list string := ["cjs"; "esm"; "iife"].

(** The key of an entry in the export map. *)
Definition output_key (host : platform) (file : string) : string :=
  let p := parse host file in
  ("./" ++ join host [replace (p_dir p) "./src" "./dist"; p_name p])%string.

(** The reducer of [updatePackageJson].  Every value stored in [acc] is
    an object made here, so [acc[key] || {...}] is that object or a new
    one. *)
Definition group_entry (host : platform) (acc : obj) (e : Entry) : obj :=
  let type := js_get formatToType (format e) in
  if negb (truthy type) then acc
  else
    let key := output_key host (file e) in
    let group :=
      match js_get acc key with
      | VObj g => g
      | _ => [("types", VStr (key ++ ".d.ts")%string)]
      end in
    let artifact := (key ++ to_string (js_get formatToExt (format e)))%string in
    obj_set acc key (VObj (obj_set group (to_string type) (VStr artifact))).

Definition group_entries (host : platform) (entries : list Entry) : obj :=
  fold_left (group_entry host) entries [].

(** ** The host: everything the script takes from outside *)

Inductive js_error : Type :=
| JsError (name message : string)
| JsThrown (v : value).

Inductive fn_result : Type :=
| Returns (v : value)
| Resolves (v : value)
| Throws (e : js_error)
| Rejects (e : js_error).

Inductive result (A : Type) : Type :=
| Ok (a : A)
| Err (e : js_error).
Arguments Ok {A} a.
Arguments Err {A} e.

Record Host : Type := mk_host {
  host_platform : platform;
  process_cwd : string;
  process_argv : list string;
  process_env_CI : option string;
  (** the value of [m.default.default || m.default] for the loaded
      [tsup.config.ts] *)
  config_export : value;
  (** the parsed [package.json] *)
  manifest : obj;
  (** what calling the function object of that name on one argument does *)
  call : string -> value -> fn_result;
  (** [sort-package-json] *)
  sortPkg : obj -> obj;
  (** [JSON.stringify(v, null, 2)] *)
  JSON_stringify : value -> string;
  (** [globalPackages] of the manager globals module *)
  globalManagerPackages : list string;
  (** the plugin [aliasPlugin] returns for the [process] and [util] shims *)
  aliasPlugin : value
}.

(** ** Normalising the configuration export *)

(** [[].concat(v)]. *)
Definition concat_into_empty (v : value) : list value :=
  match v with
  | VArr l => l
  | _ => [v]
  end.

Definition getOptionsArray (h : Host) (config : value) : result (list value) :=
  if Array_isArray config then
    Ok (match config with VArr l => l | _ => [] end)
  else if String.eqb (typeof config) "object" then
    Ok [config]
  else if String.eqb (typeof config) "function" then
    match config with
    | VFun f =>
        match call h f (VObj []) with
        | Returns v | Resolves v => Ok (concat_into_empty v)
        | Throws e | Rejects e => Err e
        end
    | _ => Ok []
    end
  else Ok [].

Definition getBaseOptions (host : platform) (watch optimized : bool) (cwd : string)
  : obj * obj :=
  ( [ ("config", VBool false);
      ("silent", VBool (negb watch));
      ("treeshake", VBool true);
      ("sourcemap", VBool false);
      ("shims", VBool false);
      ("outDir", VStr (join host [cwd; "dist"]));
      ("esbuildOptions", VFun "esbuildOptions");
      ("define",
        VObj [ ("process.env.NODE_ENV", VStr (quoted "production"));
               ("process.env.NODE_DEBUG", VStr (quoted EmptyString));
               ("process.env.FORCE_SIMILAR_INSTEAD_OF_MAP", VStr (quoted "false")) ]) ],
    [ ("watch", VBool watch); ("clean", VBool false) ] ).

Definition hasFlag (flags : list string) (name : string) : bool :=
  truthy
    (match find (fun s => String.prefix ("--" ++ name)%string s) flags with
     | Some s => VStr s
     | None => VUndefined
     end).

(** ** Effects *)

Inductive event : Type :=
| ImportConfig (path : string)
| ReadFile (path : string)
| EmptyDir (path : string)
| Build (options : value)
(** [ensureFile] and [writeFile] of the type stub at [pathName] that
    re-exports the source file [base]; the text of the re-export is not
    part of the model *)
| WriteStub (pathName base : string)
| WriteFile (path text : string)
| PrintStack (name message : string)
| ConsoleLog (text : string)
| Exit (code : Z).

Definition generateDTSMapperFile (h : Host) (file : string) : list event :=
  let p := parse (host_platform h) file in
  let pathName :=
    join (host_platform h)
      [process_cwd h; replace (p_dir p) "./src" "./dist"; (p_name p ++ ".d.ts")%string] in
  [WriteStub pathName (p_base p)].

Definition newline : string := String (ascii_of_nat 10) EmptyString.

(** [typeof e === 'object' && !Array.isArray(e) || e === undefined]. *)
Definition exports_gate (pkg : obj) : bool :=
  let e := js_get pkg "exports" in
  (String.eqb (typeof e) "object" && negb (Array_isArray e))
  || match e with VUndefined => true | _ => false end.

Definition synthesized_exports (host : platform) (entries : list Entry) : obj :=
  spread [("./package.json", VStr "./package.json")]
    (VObj (group_entries host entries)).

(** The manifest after the call, and the write when there is one. *)
Definition updatePackageJson (h : Host) (pkg : obj) (entries : list Entry)
  : obj * option (string * string) :=
  let exports := synthesized_exports (host_platform h) entries in
  if exports_gate pkg then
    let pkg' := obj_set pkg "exports" (VObj exports) in
    (pkg',
     Some (join (host_platform h) [process_cwd h; "package.json"],
           (JSON_stringify h (VObj (sortPkg h pkg')) ++ newline)%string))
  else (pkg, None).

(** ** The driver *)

Definition define_table : value :=
  VObj [ ("process.env.NODE_ENV", VStr (quoted "production"));
         ("process.env.NODE_DEBUG", VStr (quoted EmptyString));
         ("process.env.FORCE_SIMILAR_INSTEAD_OF_MAP", VStr (quoted "false")) ].

Definition browser_targets : value :=
  VArr [VStr "chrome100"; VStr "safari15"; VStr "firefox91"].

Definition prebuild_files : list string :=
  [ "./src/prebuild/manager/runtime.ts";
    "./src/prebuild/manager/globals-runtime.ts";
    "./src/prebuild/preview/globals-runtime.ts" ].

Definition globals_build (h : Host) (cwd : string) : value :=
  VObj [ ("entry", VArr [ VStr "./src/modules/manager/runtime.ts";
                          VStr "./src/modules/manager/globals-runtime.ts";
                          VStr "./src/modules/preview/globals-runtime.ts" ]);
         ("format", VArr [VStr "esm"]);
         ("external", VArr []);
         ("config", VBool false);
         ("clean", VBool false);
         ("outDir", VStr (join (host_platform h) [cwd; "dist/prebuild"]));
         ("outExtension", VFun "outExtension");
         ("define", define_table);
         ("esbuildPlugins", VArr [aliasPlugin h]);
         ("target", browser_targets) ].

Definition preset_build (h : Host) (cwd : string) : value :=
  VObj [ ("entry", VArr [VStr "./src/modules/core-server/presets/common-manager.ts"]);
         ("format", VArr [VStr "esm"]);
         ("config", VBool false);
         ("external", VArr (map VStr (globalManagerPackages h)));
         ("clean", VBool false);
         ("outDir",
           VStr (join (host_platform h) [cwd; "dist/modules/core-server/presets"]));
         ("define", define_table);
         ("esbuildPlugins", VArr [aliasPlugin h]);
         ("target", browser_targets) ].

(** [({ entry, format: formatRaw }) => ...] of the [flatMap]: the pairs of
    one descriptor, or the [TypeError] of destructuring [null] or
    [undefined]. *)
Definition config_entries (config : value) : result (list (value * value)) :=
  match config with
  | VNull | VUndefined => Err (JsError "TypeError" "Cannot destructure property 'entry'")
  | _ =>
      let entry := match config with VObj o => js_get o "entry" | _ => VUndefined end in
      let formatRaw := match config with VObj o => js_get o "format" | _ => VUndefined end in
      if negb (truthy entry) then Ok []
      else
        let files := match entry with VArr l => l | _ => Object_values entry end in
        Ok (flat_map
              (fun file => map (fun format => (file, format)) (concat_into_empty formatRaw))
              files)
  end.

Fixpoint all_config_entries (configs : list value) : result (list (value * value)) :=
  match configs with
  | [] => Ok []
  | c :: r =>
      match config_entries c with
      | Err e => Err e
      | Ok l =>
          match all_config_entries r with
          | Err e => Err e
          | Ok l' => Ok (l ++ l')
          end
      end
  end.

(** An entry as [generateDTSMapperFile] and [updatePackageJson] are
    typed to take it: the file is a string, and the format, used as a
    property key only, is its string.  [None] for a file that is not a
    string, which tsup's [Options] excludes. *)
Definition typed_entry (fv : value * value) : option Entry :=
  match fst fv with
  | VStr f => Some (mk_entry f (to_string (snd fv)))
  | _ => None
  end.

Fixpoint typed_entries (l : list (value * value)) : option (list Entry) :=
  match l with
  | [] => Some []
  | fv :: r =>
      match typed_entry fv, typed_entries r with
      | Some e, Some es => Some (e :: es)
      | _, _ => None
      end
  end.

(** [run]: the operations it starts, in program order, and the error it
    rejects with, if any.  The collaborators ([build], the file system)
    are taken to succeed.  [None] outside the typed entries, and [None]
    when the configuration function fails under [--reset]: [utils] has no
    handler while [run] awaits [emptyDir], so whether the rejection
    reaches the [catch] of the script or Node's handler of unhandled
    rejections depends on which of the two settles first. *)
Definition run (h : Host) (cwd : string) (flags : list string)
  : option (list event * option js_error) :=
  let host := host_platform h in
  let reset := hasFlag flags "reset" in
  let watch := hasFlag flags "watch" in
  let optimized := hasFlag flags "optimized" in
  let loading :=
    [ImportConfig (join host [cwd; "tsup.config.ts"]);
     ReadFile (join host [cwd; "package.json"])]
    ++ (if reset then [EmptyDir (join host [process_cwd h; "dist"])] else []) in
  match getOptionsArray h (config_export h) with
  | Err e => if reset then None else Some (loading, Some e)
  | Ok configs =>
      let '(defaults, overrides) := getBaseOptions host watch optimized cwd in
      let pkg := manifest h in
      if (List.length configs <? 1)%nat
      then Some (loading, Some (JsError "Error" "No tsup-configs found"))
      else
        let builds :=
          map (fun config => Build (mergeOptions config (VObj overrides) (VObj defaults)))
            configs in
        match all_config_entries configs with
        | Err e => Some (loading ++ builds, Some e)
        | Ok raw =>
            match typed_entries raw with
            | None => None
            | Some entries =>
                let stubs :=
                  if negb optimized
                  then flat_map (fun e => generateDTSMapperFile h (file e)) entries
                  else [] in
                let written :=
                  match snd (updatePackageJson h pkg
                               (entries ++ map (fun f => mk_entry f "iife") prebuild_files)) with
                  | Some (path, text) => [WriteFile path text]
                  | None => []
                  end in
                Some (loading ++ builds ++ stubs ++ written
                      ++ [Build (globals_build h cwd)]
                      ++ flat_map (generateDTSMapperFile h) prebuild_files
                      ++ [Build (preset_build h cwd)]
                      ++ (match process_env_CI h with
                          | Some "true" => []
                          | _ => [ConsoleLog "done"]
                          end),
                      None)
            end
        end
  end.

(** Self execution: [run] on the working directory and the arguments
    after the script's name; a rejection prints the stack of an [Error]
    and exits with 1.  The script calls [process.exit] with 1 only:
    [Exit 0] marks that [run] resolved, after which the process is left
    to end by itself (under [--watch] the builds keep it alive). *)
Definition main (h : Host) : option (list event) :=
  match run h (process_cwd h) (skipn 2 (process_argv h)) with
  | None => None
  | Some (trace, None) => Some (trace ++ [Exit 0])
  | Some (trace, Some (JsError name message)) =>
      Some (trace ++ [PrintStack name message; Exit 1])
  | Some (trace, Some (JsThrown _)) => Some (trace ++ [Exit 1])
  end.

(** ** The normalisation as the specification words it

    An array is used verbatim, a plain object is wrapped, a function is
    called on an empty object and its awaited result is coerced the same
    way, any other shape gives the empty list. *)
Definition spec_coerce (v : value) : list value :=
  match v with
  | VArr l => l
  | VObj _ => [v]
  | _ => []
  end.

Definition spec_getOptionsArray (h : Host) (config : value) : result (list value) :=
  match config with
  | VFun f =>
      match call h f (VObj []) with
      | Returns v | Resolves v => Ok (spec_coerce v)
      | Throws e | Rejects e => Err e
      end
  | _ => Ok (spec_coerce config)
  end.

(** ** A concrete host

    A stand-in for [sort-package-json] that orders the well-known fields
    first and keeps the others in the order they have, and the
    two-space [JSON.stringify]. *)
Definition known_fields : list string :=
  [ "name"; "version"; "private"; "description"; "keywords"; "license";
    "type"; "exports"; "main"; "module"; "types"; "scripts";
    "dependencies"; "devDependencies" ].

Fixpoint rank_in (fields : list string) (k : string) : nat :=
  match fields with
  | [] => O
  | f :: r => if String.eqb f k then O else S (rank_in r k)
  end.

Definition rank (k : string) : nat := rank_in known_fields k.

Fixpoint insert_by_rank (x : string * value) (l : obj) : obj :=
  match l with
  | [] => [x]
  | y :: r =>
      if (rank (fst x) <=? rank (fst y))%nat then x :: l
      else y :: insert_by_rank x r
  end.

Definition sort_by_rank (o : obj) : obj := fold_right insert_by_rank [] o.


Definition hex_digit (n : nat) : ascii :=
  ascii_of_nat (if (n <? 10)%nat then 48 + n else 87 + n).

Definition json_escape_char (c : ascii) : string :=
  let n := nat_of_ascii c in
  if (n =? 34)%nat then String "\" (String dquote EmptyString)
  else if (n =? 92)%nat then "\\"
  else if (n =? 8)%nat then "\b"
  else if (n =? 12)%nat then "\f"
  else if (n =? 10)%nat then "\n"
  else if (n =? 13)%nat then "\r"
  else if (n =? 9)%nat then "\t"
  else if (n <? 32)%nat
       then ("\u00" ++ String (hex_digit (Nat.div n 16))
                         (String (hex_digit (Nat.modulo n 16)) EmptyString))%string
  else String c EmptyString.

Fixpoint json_escape (s : string) : string :=
  match s with
  | EmptyString => EmptyString
  | String c r => (json_escape_char c ++ json_escape r)%string
  end.

Definition json_quote (s : string) : string := quoted (json_escape s).

(** [JSON.stringify(v, null, 2)] at the indentation [ind]; [None] for
    what JSON leaves out. *)
Fixpoint stringify_at (ind : string) (v : value) : option string :=
  match v with
  | VUndefined | VFun _ => None
  | VNull => Some "null"
  | VBool true => Some "true"
  | VBool false => Some "false"
  | VNum n => Some (Z_to_string n)
  | VStr s => Some (json_quote s)
  | VArr l =>
      let ind' := (ind ++ "  ")%string in
      let items :=
        (fix go (l : list value) : list string :=
           match l with
           | [] => []
           | x :: r =>
               (ind' ++ match stringify_at ind' x with
                        | Some t => t
                        | None => "null"
                        end)%string :: go r
           end) l in
      Some (match items with
            | [] => "[]"
            | _ => ("[" ++ newline ++ String.concat ("," ++ newline) items
                    ++ newline ++ ind ++ "]")%string
            end)
  | VObj o =>
      let ind' := (ind ++ "  ")%string in
      let props :=
        (fix go (o : list (string * value)) : list string :=
           match o with
           | [] => []
           | (k, x) :: r =>
               match stringify_at ind' x with
               | Some t => (ind' ++ json_quote k ++ ": " ++ t)%string :: go r
               | None => go r
               end
           end) o in
      Some (match props with
            | [] => "{}"
            | _ => ("{" ++ newline ++ String.concat ("," ++ newline) props
                    ++ newline ++ ind ++ "}")%string
            end)
  end.

Definition stringify (v : value) : string :=
  match stringify_at EmptyString v with
  | Some t => t
  | None => "undefined"
  end.

Definition example_host (host : platform) (argv : list string) (config : value)
    (pkg : obj) (calls : string -> value -> fn_result) : Host :=
  {| host_platform := host;
     process_cwd := match host with Posix => "/repo/code/core" | Win32 => "C:\repo\code\core" end;
     process_argv := argv;
     process_env_CI := None;
     config_export := config;
     manifest := pkg;
     call := calls;
     sortPkg := sort_by_rank;
     JSON_stringify := stringify;
     globalManagerPackages := ["react"; "react-dom"];
     aliasPlugin := VObj [("name", VStr "alias"); ("setup", VFun "setup")] |}.

Definition no_calls (name : string) (arg : value) : fn_result := Returns VUndefined.

Definition example_manifest : obj :=
  [ ("version", VStr "8.2.0");
    ("name", VStr "@storybook/core");
    ("exports", VObj [("./hand-written", VStr "./hand-written.js")]);
    ("files", VArr [VStr "dist/**/*"]) ].

Definition example_config : value :=
  VObj [ ("entry", VArr [VStr "./src/index.ts"]);
         ("format", VArr [VStr "cjs"; VStr "esm"]) ].

(** ** The pieces of a run

    The segments of the trace of [run], named so that statements about a
    run can speak of them, and the kinds of event. *)

Definition loading_events (h : Host) (cwd : string) (flags : list string) : list event :=
  [ImportConfig (join (host_platform h) [cwd; "tsup.config.ts"]);
   ReadFile (join (host_platform h) [cwd; "package.json"])]
  ++ (if hasFlag flags "reset"
      then [EmptyDir (join (host_platform h) [process_cwd h; "dist"])]
      else []).

(** The options [run] hands to [build] for one descriptor. *)
Definition build_options (h : Host) (cwd : string) (flags : list string)
    (config : value) : value :=
  let base :=
    getBaseOptions (host_platform h) (hasFlag flags "watch")
      (hasFlag flags "optimized") cwd in
  mergeOptions config (VObj (snd base)) (VObj (fst base)).

Definition descriptor_builds (h : Host) (cwd : string) (flags : list string)
    (configs : list value) : list event :=
  map (fun config => Build (build_options h cwd flags config)) configs.

Definition descriptor_stubs (h : Host) (flags : list string) (entries : list Entry)
  : list event :=
  if negb (hasFlag flags "optimized")
  then flat_map (fun e => generateDTSMapperFile h (file e)) entries
  else [].

Definition manifest_entries (entries : list Entry) : list Entry :=
  entries ++ map (fun f => mk_entry f "iife") prebuild_files.

Definition manifest_write (h : Host) (entries : list Entry) : list event :=
  match snd (updatePackageJson h (manifest h) (manifest_entries entries)) with
  | Some (path, text) => [WriteFile path text]
  | None => []
  end.

Definition done_log (h : Host) : list event :=
  match process_env_CI h with
  | Some "true" => []
  | _ => [ConsoleLog "done"]
  end.

Definition completed_trace (h : Host) (cwd : string) (flags : list string)
    (configs : list value) (entries : list Entry) : list event :=
  loading_events h cwd flags
  ++ descriptor_builds h cwd flags configs
  ++ descriptor_stubs h flags entries
  ++ manifest_write h entries
  ++ [Build (globals_build h cwd)]
  ++ flat_map (generateDTSMapperFile h) prebuild_files
  ++ [Build (preset_build h cwd)]
  ++ done_log h.

(** What the [catch] of the self execution does with a rejection. *)
Definition report (e : js_error) : list event :=
  match e with
  | JsError name message => [PrintStack name message; Exit 1]
  | JsThrown _ => [Exit 1]
  end.

Inductive event_kind : Type :=
| KImportConfig | KReadFile | KEmptyDir | KBuild | KWriteStub | KWriteFile
| KPrintStack | KConsoleLog | KExit.

Definition kind (e : event) : event_kind :=
  match e with
  | ImportConfig _ => KImportConfig
  | ReadFile _ => KReadFile
  | EmptyDir _ => KEmptyDir
  | Build _ => KBuild
  | WriteStub _ _ => KWriteStub
  | WriteFile _ _ => KWriteFile
  | PrintStack _ _ => KPrintStack
  | ConsoleLog _ => KConsoleLog
  | Exit _ => KExit
  end.

Definition kind_eqb (a b : event_kind) : bool :=
  match a, b with
  | KImportConfig, KImportConfig | KReadFile, KReadFile | KEmptyDir, KEmptyDir
  | KBuild, KBuild | KWriteStub, KWriteStub | KWriteFile, KWriteFile
  | KPrintStack, KPrintStack | KConsoleLog, KConsoleLog | KExit, KExit => true
  | _, _ => false
  end.

(** The events of one kind, in the order of the trace. *)
Definition of_kind (k : event_kind) (trace : list event) : list event :=
  filter (fun e => kind_eqb (kind e) k) trace.

(** ** Invariants of the grouped map *)

(** Every value is a group that carries its [types]. *)
Definition groups_well_formed (acc : obj) : Prop :=
  forall k v,
    obj_get_own acc k = Some v ->
    exists g, v = VObj g /\ obj_get_own g "types" = Some (VStr (k ++ ".d.ts")%string).

(** The group at [key] holds [cond], pointing at [key] followed by one
    of the extensions [exts]. *)
Definition has_condition (acc : obj) (key cond : string) (exts : list string) : Prop :=
  exists g x,
    obj_get_own acc key = Some (VObj g) /\
    obj_get_own g cond = Some (VStr (key ++ x)%string) /\
    In x exts.

(** * Properties *)

(** Finds a member of one piece of a concatenation. *)
Ltac find_in H :=
  first [ exact H
        | apply in_or_app; left; exact H
        | apply in_or_app; right; find_in H
        | right; find_in H ].

Section ObjectLemmas.

Lemma obj_get_own_replace_same (o : obj) (k : string) (v : value) :
  obj_has_own o k = true -> obj_get_own (obj_replace o k v) k = Some v.
Proof.
  unfold obj_has_own.
  induction o as [| [k' v'] r IH]; simpl; [discriminate |].
  destruct (String.eqb k' k) eqn:E; simpl; rewrite E; auto.
Qed.

Lemma obj_get_own_replace_other (o : obj) (k k' : string) (v : value) :
  k' <> k -> obj_get_own (obj_replace o k v) k' = obj_get_own o k'.
Proof.
  intros Hne.
  induction o as [| [k0 v0] r IH]; simpl; [reflexivity |].
  destruct (String.eqb k0 k) eqn:E; simpl.
  - apply String.eqb_eq in E; subst k0.
    assert (Hk : String.eqb k k' = false) by (apply String.eqb_neq; congruence).
    rewrite Hk. reflexivity.
  - rewrite IH; reflexivity.
Qed.

Lemma obj_get_own_insert_same (o : obj) (n : N) (k : string) (v : value) :
  obj_has_own o k = false -> obj_get_own (obj_insert_index o n k v) k = Some v.
Proof.
  unfold obj_has_own.
  induction o as [| [k0 v0] r IH]; simpl; intros H.
  - rewrite String.eqb_refl; reflexivity.
  - destruct (String.eqb k0 k) eqn:E; [discriminate |].
    destruct (array_index k0) as [n' |]; [destruct (n <? n')%N |]; simpl;
      rewrite ?String.eqb_refl, ?E; auto.
Qed.

Lemma obj_get_own_insert_other (o : obj) (n : N) (k k' : string) (v : value) :
  k' <> k -> obj_get_own (obj_insert_index o n k v) k' = obj_get_own o k'.
Proof.
  intros Hne.
  assert (Hk : String.eqb k k' = false) by (apply String.eqb_neq; congruence).
  induction o as [| [k0 v0] r IH]; simpl.
  - rewrite Hk; reflexivity.
  - destruct (array_index k0) as [n' |]; [destruct (n <? n')%N |]; simpl;
      rewrite ?Hk, ?IH; reflexivity.
Qed.

Lemma obj_get_own_app (o1 o2 : obj) (k : string) :
  obj_get_own (o1 ++ o2) k =
  match obj_get_own o1 k with Some v => Some v | None => obj_get_own o2 k end.
Proof.
  induction o1 as [| [k0 v0] r IH]; simpl; [reflexivity |].
  destruct (String.eqb k0 k); auto.
Qed.

(** Reading back the property that was just written. *)
Lemma obj_get_own_set_same (o : obj) (k : string) (v : value) :
  obj_get_own (obj_set o k v) k = Some v.
Proof.
  unfold obj_set.
  destruct (obj_has_own o k) eqn:H.
  - apply obj_get_own_replace_same; exact H.
  - destruct (array_index k) as [n |].
    + apply obj_get_own_insert_same; exact H.
    + rewrite obj_get_own_app.
      unfold obj_has_own in H.
      destruct (obj_get_own o k); [discriminate |].
      simpl. rewrite String.eqb_refl. reflexivity.
Qed.

(** Writing one property leaves every other property alone. *)
Lemma obj_get_own_set_other (o : obj) (k k' : string) (v : value) :
  k' <> k -> obj_get_own (obj_set o k v) k' = obj_get_own o k'.
Proof.
  intros Hne. unfold obj_set.
  destruct (obj_has_own o k).
  - apply obj_get_own_replace_other; exact Hne.
  - destruct (array_index k) as [n |].
    + apply obj_get_own_insert_other; exact Hne.
    + rewrite obj_get_own_app. simpl.
      assert (Hk : String.eqb k k' = false) by (apply String.eqb_neq; congruence).
      rewrite Hk. destruct (obj_get_own o k'); reflexivity.
Qed.

Lemma obj_get_own_In_keys (o : obj) (k : string) (v : value) :
  obj_get_own o k = Some v -> In k (obj_keys o).
Proof.
  induction o as [| [k0 v0] r IH]; simpl; [discriminate |].
  destruct (String.eqb k0 k) eqn:E.
  - apply String.eqb_eq in E. auto.
  - auto.
Qed.

Lemma obj_get_own_not_In_keys (o : obj) (k : string) :
  obj_get_own o k = None -> ~ In k (obj_keys o).
Proof.
  induction o as [| [k0 v0] r IH]; simpl; [tauto |].
  destruct (String.eqb k0 k) eqn:E; [discriminate |].
  apply String.eqb_neq in E. intros H [H1 | H1]; [congruence | exact (IH H H1)].
Qed.

(** One layer of a spread: the source's properties win, the target's
    other properties stay. *)
Lemma obj_get_own_spread_keys (src : obj) (ks : list string) (target : obj) (k : string) :
  obj_get_own
    (fold_left
       (fun acc k0 =>
          match obj_get_own src k0 with
          | Some v => obj_set acc k0 v
          | None => acc
          end) ks target) k =
  if in_dec string_dec k ks
  then match obj_get_own src k with
       | Some v => Some v
       | None => obj_get_own target k
       end
  else obj_get_own target k.
Proof.
  revert target.
  induction ks as [| k0 ks IH]; intros target; simpl; [reflexivity |].
  rewrite IH.
  destruct (string_dec k0 k) as [-> | Hne].
  - destruct (obj_get_own src k) as [v |] eqn:Hs.
    + rewrite obj_get_own_set_same.
      destruct (in_dec string_dec k ks); reflexivity.
    + destruct (in_dec string_dec k ks); reflexivity.
  - destruct (in_dec string_dec k ks) as [Hin | Hnin].
    + destruct (obj_get_own src k); [reflexivity |].
      destruct (obj_get_own src k0); [| reflexivity].
      apply obj_get_own_set_other. congruence.
    + destruct (obj_get_own src k0); [| reflexivity].
      apply obj_get_own_set_other. congruence.
Qed.

Lemma obj_get_own_spread (target : obj) (source : value) (k : string) :
  obj_get_own (spread target source) k =
  match obj_get_own (own_enumerable source) k with
  | Some v => Some v
  | None => obj_get_own target k
  end.
Proof.
  unfold spread. rewrite obj_get_own_spread_keys.
  destruct (in_dec string_dec k (obj_keys (own_enumerable source))) as [Hin | Hnin].
  - reflexivity.
  - destruct (obj_get_own (own_enumerable source) k) eqn:E; [| reflexivity].
    apply obj_get_own_In_keys in E. contradiction.
Qed.

End ObjectLemmas.

(** C1: for every defaults, descriptor and overrides record the merged
    options are an object whose field [k] holds the overrides' value when
    the overrides have the field, else the descriptor's value when the
    descriptor has it, else the defaults' value (absent when the defaults
    lack it too); the value is taken whole from that layer, nothing is
    merged below the top level. *)
Theorem mergeOptions_precedence (defaults config overrides : obj) :
  exists merged,
    mergeOptions (VObj config) (VObj overrides) (VObj defaults) = VObj merged /\
    forall k, obj_get_own merged k = layered overrides config defaults k.
Proof.
  eexists. split; [reflexivity |].
  intros k. unfold layered.
  rewrite !obj_get_own_spread. simpl.
  destruct (obj_get_own overrides k); [reflexivity |].
  destruct (obj_get_own config k); [reflexivity |].
  destruct (obj_get_own defaults k); reflexivity.
Qed.





(** ** The path functions on the examples of Node's documentation *)

Example posix_join_doc :
  posix.join ["/foo"; "bar"; "baz/asdf"; "quux"; ".."] = "/foo/bar/baz/asdf".
Proof. reflexivity. Qed.

Example posix_normalize_doc :
  posix.normalize "/foo/bar//baz/asdf/quux/.." = "/foo/bar/baz/asdf".
Proof. reflexivity. Qed.

Example win32_normalize_doc :
  win32.normalize "C:\temp\\foo\bar\..\" = "C:\temp\foo\" /\
  win32.normalize "C:////temp\\/\/\/foo/bar" = "C:\temp\foo\bar".
Proof. split; reflexivity. Qed.

Example win32_join_unc :
  win32.join ["//server"; "share"] = "\\server\share\".
Proof. reflexivity. Qed.

Example posix_parse_doc :
  posix.parse "/home/user/dir/file.txt" =
  mk_parsed "/" "/home/user/dir" "file.txt" ".txt" "file".
Proof. reflexivity. Qed.

Example win32_parse_doc :
  win32.parse "C:\path\dir\file.txt" =
  mk_parsed "C:\" "C:\path\dir" "file.txt" ".txt" "file".
Proof. reflexivity. Qed.

Example parse_entry_file (host : platform) :
  parse host "./src/foo/bar.ts" = mk_parsed EmptyString "./src/foo" "bar.ts" ".ts" "bar".
Proof. destruct host; reflexivity. Qed.

Example join_dist_dir :
  join Posix ["./dist/foo"; "bar"] = "dist/foo/bar" /\
  join Win32 ["./dist/foo"; "bar"] = "dist\foo\bar".
Proof. split; reflexivity. Qed.

Example hasFlag_prefix :
  hasFlag ["--watch=src"; "-x"] "watch" = true /\
  hasFlag ["--watch=src"; "-x"] "reset" = false.
Proof. split; reflexivity. Qed.

(** ** The precondition gate *)

Lemma js_get_exports (pkg : obj) :
  js_get pkg "exports" =
  match obj_get_own pkg "exports" with Some v => v | None => VUndefined end.
Proof.
  unfold js_get. destruct (obj_get_own pkg "exports"); reflexivity.
Qed.



(** C2, amended: a manifest whose [exports] is a string, an array, a
    number, a boolean or a function is returned as it is and nothing is
    written; the assignment of the synthesized map and the write happen
    exactly when [exports] is [undefined], [null] or a plain object. *)
Theorem updatePackageJson_gate (h : Host) (pkg : obj) (entries : list Entry) :
  match js_get pkg "exports" with
  | VStr _ | VArr _ | VNum _ | VBool _ | VFun _ =>
      updatePackageJson h pkg entries = (pkg, None)
  | VUndefined | VNull | VObj _ =>
      let pkg' :=
        obj_set pkg "exports" (VObj (synthesized_exports (host_platform h) entries)) in
      updatePackageJson h pkg entries =
      (pkg',
       Some (join (host_platform h) [process_cwd h; "package.json"],
             (JSON_stringify h (VObj (sortPkg h pkg')) ++ newline)%string))
  end.
Proof.
  unfold updatePackageJson, exports_gate.
  destruct (js_get pkg "exports"); reflexivity.
Qed.

(** C2 as stated fails: the write does not happen only for an [exports]
    that is [undefined] or a plain object.  The manifest
    [{ name: "x", exports: null }] with no entries is rewritten. *)
Lemma exports_null_is_rewritten :
  ~ (forall (h : Host) (pkg : obj) (entries : list Entry),
        snd (updatePackageJson h pkg entries) <> None ->
        js_get pkg "exports" = VUndefined \/
        exists o, js_get pkg "exports" = VObj o).
Proof.
  intros H.
  specialize (H (example_host Posix [] VUndefined [] no_calls)
                [("name", VStr "x"); ("exports", VNull)] []).
  destruct H as [H | [o H]].
  - vm_compute. discriminate.
  - vm_compute in H. discriminate.
  - vm_compute in H. discriminate.
Qed.

(** C10: a manifest whose [exports] is [null] passes the gate, so it is
    assigned the synthesized map and written. *)
Theorem exports_null_passes_gate (h : Host) (pkg : obj) (entries : list Entry) :
  obj_get_own pkg "exports" = Some VNull ->
  exports_gate pkg = true /\
  obj_get_own (fst (updatePackageJson h pkg entries)) "exports" =
    Some (VObj (synthesized_exports (host_platform h) entries)) /\
  snd (updatePackageJson h pkg entries) =
    Some (join (host_platform h) [process_cwd h; "package.json"],
          (JSON_stringify h (VObj (sortPkg h (fst (updatePackageJson h pkg entries))))
           ++ newline)%string).
Proof.
  intros Hnull.
  assert (Hgate : exports_gate pkg = true).
  { unfold exports_gate. rewrite js_get_exports, Hnull. reflexivity. }
  unfold updatePackageJson. rewrite Hgate. cbn [fst snd].
  repeat split; auto.
  apply obj_get_own_set_same.
Qed.

Lemma exports_null_passes_gate_witness :
  let h := example_host Posix [] VUndefined [] no_calls in
  let pkg := [("name", VStr "x"); ("exports", VNull)] in
  obj_get_own pkg "exports" = Some VNull /\
  exports_gate pkg = true /\
  obj_get_own (fst (updatePackageJson h pkg [])) "exports" =
    Some (VObj (synthesized_exports Posix [])).
Proof.
  intros h pkg.
  assert (Hnull : obj_get_own pkg "exports" = Some VNull) by reflexivity.
  destruct (exports_null_passes_gate h pkg [] Hnull) as [Hg [Hm _]].
  split; [exact Hnull |]. split; [exact Hg | exact Hm].
Defined.

(** ** The synthesized export map *)

Lemma obj_keys_get_own (o : obj) (k : string) :
  In k (obj_keys o) <-> obj_get_own o k <> None.
Proof.
  split.
  - intros Hin Hnone. exact (obj_get_own_not_In_keys o k Hnone Hin).
  - destruct (obj_get_own o k) eqn:E; [| congruence].
    intros _. exact (obj_get_own_In_keys o k v E).
Qed.

Lemma obj_keys_set (o : obj) (k k' : string) (v : value) :
  In k' (obj_keys (obj_set o k v)) <-> k' = k \/ In k' (obj_keys o).
Proof.
  rewrite !obj_keys_get_own.
  destruct (string_dec k' k) as [-> | Hne].
  - rewrite obj_get_own_set_same. split; [auto | discriminate].
  - rewrite (obj_get_own_set_other o k k' v Hne). tauto.
Qed.

Lemma obj_keys_replace (o : obj) (k : string) (v : value) :
  obj_keys (obj_replace o k v) = obj_keys o.
Proof.
  induction o as [| [k0 v0] r IH]; simpl; [reflexivity |].
  destruct (String.eqb k0 k); simpl; [reflexivity | now rewrite IH].
Qed.

(** A key that is not an array index never moves in front of the keys
    that are there. *)
Lemma obj_set_keeps_first (o : obj) (k k0 : string) (v : value) :
  array_index k = None ->
  hd_error (obj_keys o) = Some k0 ->
  hd_error (obj_keys (obj_set o k v)) = Some k0.
Proof.
  intros Hidx Hhd. unfold obj_set.
  destruct (obj_has_own o k).
  - rewrite obj_keys_replace. exact Hhd.
  - rewrite Hidx. destruct o as [| [k1 v1] r]; [discriminate | exact Hhd].
Qed.

Lemma spread_keys_keep_first (src : obj) (ks : list string) (target : obj) (k0 : string) :
  (forall k, In k ks -> array_index k = None) ->
  hd_error (obj_keys target) = Some k0 ->
  hd_error
    (obj_keys
       (fold_left
          (fun acc k =>
             match obj_get_own src k with
             | Some v => obj_set acc k v
             | None => acc
             end) ks target)) = Some k0.
Proof.
  revert target.
  induction ks as [| k ks IH]; intros target Hidx Hhd; simpl; [exact Hhd |].
  apply IH.
  - intros k' Hin. apply Hidx. now right.
  - destruct (obj_get_own src k); [| exact Hhd].
    apply obj_set_keeps_first; [apply Hidx; now left | exact Hhd].
Qed.

Lemma output_key_dot_slash (host : platform) (f : string) :
  exists rest, output_key host f = String "." (String "/" rest).
Proof.
  unfold output_key. eexists. reflexivity.
Qed.

Lemma dot_slash_not_index (rest : string) :
  array_index (String "." (String "/" rest)) = None.
Proof. reflexivity. Qed.

(** A key of the export map is never found on [Object.prototype]. *)
Lemma js_get_dot_slash (o : obj) (rest : string) :
  js_get o (String "." (String "/" rest)) =
  match obj_get_own o (String "." (String "/" rest)) with
  | Some v => v
  | None => VUndefined
  end.
Proof.
  unfold js_get. destruct (obj_get_own o _); reflexivity.
Qed.

Lemma group_entry_keys (host : platform) (acc : obj) (e : Entry) (k : string) :
  In k (obj_keys (group_entry host acc e)) ->
  In k (obj_keys acc) \/ k = output_key host (file e).
Proof.
  unfold group_entry.
  destruct (negb (truthy (js_get formatToType (format e)))); [auto |].
  rewrite obj_keys_set. tauto.
Qed.

Lemma group_entries_keys_from (host : platform) (entries : list Entry) (acc : obj)
    (k : string) :
  In k (obj_keys (fold_left (group_entry host) entries acc)) ->
  In k (obj_keys acc) \/ exists e, In e entries /\ k = output_key host (file e).
Proof.
  revert acc.
  induction entries as [| e es IH]; intros acc; simpl; [auto |].
  intros Hin. destruct (IH _ Hin) as [H | [e' [He' Hk]]].
  - destruct (group_entry_keys host acc e k H) as [H' | H'].
    + now left.
    + right. exists e. auto.
  - right. exists e'. auto.
Qed.

(** Every key of the grouped entries is the output key of an entry. *)
Lemma group_entries_keys (host : platform) (entries : list Entry) (k : string) :
  In k (obj_keys (group_entries host entries)) ->
  exists e, In e entries /\ k = output_key host (file e).
Proof.
  intros Hin.
  destruct (group_entries_keys_from host entries [] k Hin) as [[] | H]; exact H.
Qed.

(** C3: for a manifest that passes the gate, the call assigns to
    [exports] the object [{ './package.json': './package.json',
    ...grouped }] and touches no other field.  The first key of that
    object is ['./package.json'], every other key is a key of the
    grouped entries, and the values are the grouped ones over the pinned
    one: nothing of the previous [exports] is read. *)
Theorem exports_replaced (h : Host) (pkg : obj) (entries : list Entry) :
  exports_gate pkg = true ->
  let grouped := group_entries (host_platform h) entries in
  let exports := spread [("./package.json", VStr "./package.json")] (VObj grouped) in
  let pkg' := fst (updatePackageJson h pkg entries) in
  obj_get_own pkg' "exports" = Some (VObj exports) /\
  (forall k, k <> "exports" -> obj_get_own pkg' k = obj_get_own pkg k) /\
  hd_error (obj_keys exports) = Some "./package.json" /\
  (forall k, In k (obj_keys exports) ->
             k = "./package.json" \/ In k (obj_keys grouped)) /\
  (forall k, obj_get_own exports k =
             match obj_get_own grouped k with
             | Some v => Some v
             | None => if String.eqb "./package.json" k
                       then Some (VStr "./package.json") else None
             end).
Proof.
  intros Hgate grouped exports pkg'.
  assert (Hpkg : pkg' = obj_set pkg "exports" (VObj exports)).
  { unfold pkg', updatePackageJson. rewrite Hgate. reflexivity. }
  assert (Hget : forall k, obj_get_own exports k =
             match obj_get_own grouped k with
             | Some v => Some v
             | None => if String.eqb "./package.json" k
                       then Some (VStr "./package.json") else None
             end).
  { intros k. unfold exports. rewrite obj_get_own_spread. reflexivity. }
  repeat split.
  - rewrite Hpkg. apply obj_get_own_set_same.
  - intros k Hk. rewrite Hpkg. apply obj_get_own_set_other. exact Hk.
  - unfold exports, spread. apply spread_keys_keep_first; [| reflexivity].
    intros k Hin. simpl in Hin.
    destruct (group_entries_keys _ _ _ Hin) as [e [_ ->]].
    destruct (output_key_dot_slash (host_platform h) (file e)) as [rest ->].
    apply dot_slash_not_index.
  - intros k Hin. apply obj_keys_get_own in Hin. rewrite Hget in Hin.
    destruct (obj_get_own grouped k) eqn:E.
    + right. exact (obj_get_own_In_keys grouped k v E).
    + destruct (String.eqb "./package.json" k) eqn:Ek; [| congruence].
      left. apply String.eqb_eq in Ek. congruence.
  - exact Hget.
Qed.

Lemma exports_replaced_witness :
  let h := example_host Posix [] VUndefined [] no_calls in
  let entries := [mk_entry "./src/index.ts" "cjs"] in
  exports_gate example_manifest = true /\
  obj_get_own (fst (updatePackageJson h example_manifest entries)) "exports" =
    Some (VObj [ ("./package.json", VStr "./package.json");
                 ("./dist/index",
                   VObj [ ("types", VStr "./dist/index.d.ts");
                          ("require", VStr "./dist/index.js") ]) ]).
Proof.
  intros h entries.
  assert (Hgate : exports_gate example_manifest = true) by reflexivity.
  split; [exact Hgate |].
  exact (proj1 (exports_replaced h example_manifest entries Hgate)).
Defined.

(** ** The format tables *)

Lemma obj_set_new_dot_slash (rest : string) (v : value) :
  obj_set [] (String "." (String "/" rest)) v = [(String "." (String "/" rest), v)].
Proof. reflexivity. Qed.

Lemma obj_get_own_head (k : string) (v : value) (r : obj) :
  obj_get_own ((k, v) :: r) k = Some v.
Proof. simpl. rewrite String.eqb_refl. reflexivity. Qed.

Lemma obj_set_head (k : string) (v v' : value) (r : obj) :
  obj_set ((k, v) :: r) k v' = (k, v') :: r.
Proof.
  unfold obj_set, obj_has_own. rewrite obj_get_own_head.
  simpl. rewrite String.eqb_refl. reflexivity.
Qed.

(** The first entry of a file opens its group. *)
Lemma group_entry_first (host : platform) (f fmt : string) :
  In fmt known_formats ->
  let key := output_key host f in
  group_entry host [] (mk_entry f fmt) =
    [ (key, VObj [ ("types", VStr (key ++ ".d.ts")%string);
                   (to_string (js_get formatToType fmt),
                    VStr (key ++ to_string (js_get formatToExt fmt))%string) ]) ].
Proof.
  intros Hin key. unfold group_entry, key. cbn [file format].
  destruct (output_key_dot_slash host f) as [rest ->].
  rewrite js_get_dot_slash.
  destruct Hin as [<- | [<- | [<- | []]]]; reflexivity.
Qed.

(** A later entry of the same file writes its condition into the group
    that is there. *)
Lemma group_entry_again (host : platform) (f fmt : string) (g r : obj) :
  In fmt known_formats ->
  let key := output_key host f in
  group_entry host ((key, VObj g) :: r) (mk_entry f fmt) =
    (key, VObj (obj_set g (to_string (js_get formatToType fmt))
                  (VStr (key ++ to_string (js_get formatToExt fmt))%string))) :: r.
Proof.
  intros Hin key. unfold group_entry, key. cbn [file format].
  destruct (output_key_dot_slash host f) as [rest ->].
  rewrite js_get_dot_slash, obj_get_own_head, obj_set_head.
  destruct Hin as [<- | [<- | [<- | []]]]; reflexivity.
Qed.

(** A CommonJS entry alone yields [types] and [require]; the same file
    built as an ES module too adds [module] to the same group. *)
Lemma group_cjs_then_esm (host : platform) (f : string) :
  let key := output_key host f in
  group_entries host [mk_entry f "cjs"] =
    [ (key, VObj [ ("types", VStr (key ++ ".d.ts")%string);
                   ("require", VStr (key ++ ".js")%string) ]) ] /\
  group_entries host [mk_entry f "cjs"; mk_entry f "esm"] =
    [ (key, VObj [ ("types", VStr (key ++ ".d.ts")%string);
                   ("require", VStr (key ++ ".js")%string);
                   ("module", VStr (key ++ ".mjs")%string) ]) ].
Proof.
  intros key. unfold group_entries. cbn [fold_left].
  rewrite (group_entry_first host f "cjs") by (simpl; auto).
  split; [reflexivity |].
  rewrite (group_entry_again host f "esm") by (simpl; auto).
  reflexivity.
Qed.

(** IIFE and ESM both register under [module]: the later entry wins. *)
Lemma module_condition_last_wins (host : platform) (f : string) :
  let key := output_key host f in
  group_entries host [mk_entry f "iife"; mk_entry f "esm"] =
    [ (key, VObj [ ("types", VStr (key ++ ".d.ts")%string);
                   ("module", VStr (key ++ ".mjs")%string) ]) ] /\
  group_entries host [mk_entry f "esm"; mk_entry f "iife"] =
    [ (key, VObj [ ("types", VStr (key ++ ".d.ts")%string);
                   ("module", VStr (key ++ ".js")%string) ]) ].
Proof.
  intros key. unfold group_entries. cbn [fold_left].
  rewrite (group_entry_first host f "iife") by (simpl; auto).
  rewrite (group_entry_first host f "esm") by (simpl; auto).
  rewrite !group_entry_again by (simpl; auto).
  split; reflexivity.
Qed.

(** A tag that is neither in the table nor the name of a member every
    object inherits adds nothing to the map. *)
Lemma unknown_tag_skipped (host : platform) (acc : obj) (e : Entry) :
  obj_get_own formatToType (format e) = None ->
  obj_get_own Object_prototype (format e) = None ->
  format e <> "__proto__" ->
  group_entry host acc e = acc.
Proof.
  intros Hown Hproto Hne.
  unfold group_entry, js_get. rewrite Hown, Hproto.
  apply String.eqb_neq in Hne. rewrite Hne. reflexivity.
Qed.

(** C4, at the failing input: the tag ["constructor"] is not a format,
    yet [formatToType["constructor"]] reads the inherited
    [Object.prototype.constructor], which is truthy, so the entry
    [{ file: "./src/a.ts", format: "constructor" }] creates the group
    ["./dist/a"] by itself. *)
Theorem inherited_tag_creates_group :
  group_entries Posix [mk_entry "./src/a.ts" "constructor"] =
    [ ("./dist/a",
       VObj [ ("types", VStr "./dist/a.d.ts");
              ("function Object() { [native code] }",
               VStr "./dist/afunction Object() { [native code] }") ]) ] /\
  obj_get_own formatToType "constructor" = None /\
  group_entries Posix [mk_entry "./src/a.ts" "commonjs"] = [].
Proof. repeat split. Qed.

(** ** Output keys *)

(** C5, at the failing input: on a Windows host [path.join] joins with
    backslashes, so the key of ["./src/foo/bar.ts"] is
    ["./dist\foo\bar"]; on a POSIX host it is ["./dist/foo/bar"]. *)
Theorem output_key_follows_host_separator :
  output_key Win32 "./src/foo/bar.ts" = "./dist\foo\bar" /\
  output_key Posix "./src/foo/bar.ts" = "./dist/foo/bar".
Proof. split; reflexivity. Qed.

(** ** Normalising the configuration export *)

(** C7 as stated fails: the result of a function is not coerced the way
    the export itself is.  For a function returning the string
    ["./src/index.ts"] the list is that one string, not the empty list. *)
Lemma function_result_is_wrapped :
  ~ (forall (h : Host) (config : value),
        getOptionsArray h config = spec_getOptionsArray h config).
Proof.
  intros H.
  specialize (H (example_host Posix [] (VFun "config") []
                   (fun _ _ => Returns (VStr "./src/index.ts")))
                (VFun "config")).
  vm_compute in H. discriminate.
Qed.

(** C7, amended: an array is returned verbatim; an object ([null]
    counts, its [typeof] is ["object"]) is wrapped as a one-element
    list; a function is called on an empty object and its result,
    awaited or not, is returned verbatim when it is an array and wrapped
    as a one-element list otherwise, whatever it is; a string, number,
    boolean or [undefined] gives the empty list.  So a descriptor, the
    list holding it, and a function returning or resolving to either give
    the same list. *)
Theorem getOptionsArray_cases (h : Host) :
  (forall config,
      getOptionsArray h config =
      match config with
      | VArr l => Ok l
      | VObj _ | VNull => Ok [config]
      | VFun f =>
          match call h f (VObj []) with
          | Returns v | Resolves v =>
              Ok (match v with VArr l => l | _ => [v] end)
          | Throws e | Rejects e => Err e
          end
      | VStr _ | VNum _ | VBool _ | VUndefined => Ok []
      end) /\
  (forall f l,
      call h f (VObj []) = Returns (VArr l) \/ call h f (VObj []) = Resolves (VArr l) ->
      getOptionsArray h (VFun f) = getOptionsArray h (VArr l)) /\
  (forall f o,
      call h f (VObj []) = Returns (VObj o) \/ call h f (VObj []) = Resolves (VObj o) ->
      getOptionsArray h (VFun f) = getOptionsArray h (VObj o) /\
      getOptionsArray h (VObj o) = getOptionsArray h (VArr [VObj o])).
Proof.
  split; [| split].
  - intros config. unfold getOptionsArray.
    destruct config; reflexivity.
  - intros f l [H | H]; unfold getOptionsArray; cbn; rewrite H; reflexivity.
  - intros f o H. split; [| reflexivity].
    destruct H as [H | H]; unfold getOptionsArray; cbn; rewrite H; reflexivity.
Qed.

Lemma getOptionsArray_cases_witness :
  let h := example_host Posix [] (VFun "config") []
             (fun _ _ => Resolves example_config) in
  call h "config" (VObj []) = Resolves example_config /\
  getOptionsArray h (VFun "config") = Ok [example_config] /\
  getOptionsArray h example_config = Ok [example_config] /\
  getOptionsArray h (VArr [example_config]) = Ok [example_config].
Proof.
  intros h.
  assert (Hcall : call h "config" (VObj []) = Resolves example_config) by reflexivity.
  destruct (getOptionsArray_cases h) as [_ [_ Hobj]].
  destruct (Hobj "config"
              [ ("entry", VArr [VStr "./src/index.ts"]);
                ("format", VArr [VStr "cjs"; VStr "esm"]) ]
              (or_intror Hcall)) as [H1 H2].
  split; [exact Hcall |].
  split; [rewrite H1; reflexivity |].
  split; reflexivity.
Defined.

(** ** The driver *)

(** C8: when the normalised descriptor list is empty the run rejects
    with the error ["No tsup-configs found"]: after loading (and the
    reset of the output directory when asked for) nothing is started, no
    build, no stub, no manifest write; the stack is printed and the
    process exits with status 1. *)
Theorem no_configs_is_fatal (h : Host) :
  getOptionsArray h (config_export h) = Ok [] ->
  exists loading,
    main h = Some (loading ++ [PrintStack "Error" "No tsup-configs found"; Exit 1]) /\
    forall e, In e loading ->
      exists path, e = ImportConfig path \/ e = ReadFile path \/ e = EmptyDir path.
Proof.
  intros Hempty.
  unfold main, run. rewrite Hempty. cbn [List.length Nat.ltb Nat.leb getBaseOptions].
  eexists. split; [reflexivity |].
  intros e Hin. apply in_app_or in Hin. destruct Hin as [Hin | Hin].
  - destruct Hin as [<- | [<- | []]]; eexists; eauto.
  - destruct (hasFlag _ "reset"); [| destruct Hin].
    destruct Hin as [<- | []]. eexists; eauto.
Qed.

Lemma no_configs_is_fatal_witness :
  let h := example_host Posix ["node"; "core-bundle.ts"; "--reset"; "--optimized"]
             (VStr "not a config") example_manifest no_calls in
  getOptionsArray h (config_export h) = Ok [] /\
  exists loading,
    main h = Some (loading ++ [PrintStack "Error" "No tsup-configs found"; Exit 1]).
Proof.
  intros h.
  assert (Hempty : getOptionsArray h (config_export h) = Ok []) by reflexivity.
  split; [exact Hempty |].
  destruct (no_configs_is_fatal h Hempty) as [loading [Hmain _]].
  exists loading. exact Hmain.
Defined.

(** In a run that completes, the stubs of the three runtime-globals
    files are written whatever the flags are. *)
Lemma prebuild_stubs_always_written (h : Host) (trace : list event) (f : string) :
  run h (process_cwd h) (skipn 2 (process_argv h)) = Some (trace, None) ->
  In f prebuild_files ->
  incl (generateDTSMapperFile h f) trace.
Proof.
  intros Hrun Hin e He.
  assert (Hstub : In e (flat_map (generateDTSMapperFile h) prebuild_files)).
  { apply in_flat_map. exists f. auto. }
  clear Hin He. revert Hrun. unfold run.
  set (stubs := flat_map (generateDTSMapperFile h) prebuild_files) in *.
  destruct (getOptionsArray h (config_export h)) as [configs |];
    [| destruct (hasFlag _ "reset"); discriminate].
  destruct (getBaseOptions _ _ _ _) as [defaults overrides].
  destruct (List.length configs <? 1)%nat; [discriminate |].
  destruct (all_config_entries configs) as [raw |]; [| discriminate].
  destruct (typed_entries raw) as [entries |]; [| discriminate].
  intros Hrun.
  match type of Hrun with
  | Some (?t, _) = _ =>
      assert (Ht : In e t) by find_in Hstub;
      assert (Heq : t = trace) by congruence
  end.
  rewrite <- Heq. exact Ht.
Qed.

(** C9, at the failing input: with [--optimized] and one descriptor the
    stubs of the descriptor's entries are skipped, but the three stubs of
    the runtime-globals files are written all the same. *)
Theorem optimized_run_writes_prebuild_stubs :
  let h := example_host Posix ["node"; "core-bundle.ts"; "--optimized"]
             example_config example_manifest no_calls in
  hasFlag (skipn 2 (process_argv h)) "optimized" = true /\
  exists trace,
    main h = Some trace /\
    ~ In (WriteStub "/repo/code/core/dist/index.d.ts" "index.ts") trace /\
    In (WriteStub "/repo/code/core/dist/prebuild/manager/runtime.d.ts" "runtime.ts")
       trace /\
    In (WriteStub "/repo/code/core/dist/prebuild/manager/globals-runtime.d.ts"
          "globals-runtime.ts") trace /\
    In (WriteStub "/repo/code/core/dist/prebuild/preview/globals-runtime.d.ts"
          "globals-runtime.ts") trace.
Proof.
  intros h. split; [reflexivity |].
  eexists. split; [vm_compute; reflexivity |].
  split.
  - cbn. intros H.
    repeat (destruct H as [H | H]; [discriminate H |]). exact H.
  - cbn. repeat split; auto 12.
Qed.

(** ** Idempotence of the synthesizer *)



(** * Further properties of the code *)

(** ** The shape of a run *)

Lemma run_cases (h : Host) (cwd : string) (flags : list string) :
  run h cwd flags =
  match getOptionsArray h (config_export h) with
  | Err e =>
      if hasFlag flags "reset" then None
      else Some (loading_events h cwd flags, Some e)
  | Ok configs =>
      match configs with
      | [] => Some (loading_events h cwd flags,
                    Some (JsError "Error" "No tsup-configs found"))
      | _ :: _ =>
          match all_config_entries configs with
          | Err e =>
              Some (loading_events h cwd flags ++ descriptor_builds h cwd flags configs,
                    Some e)
          | Ok raw =>
              match typed_entries raw with
              | None => None
              | Some entries => Some (completed_trace h cwd flags configs entries, None)
              end
          end
      end
  end.
Proof.
  unfold run.
  destruct (getOptionsArray h (config_export h)) as [configs | e]; [| reflexivity].
  destruct configs as [| c configs]; reflexivity.
Qed.

Lemma main_cases (h : Host) (trace : list event) :
  main h = Some trace ->
  let cwd := process_cwd h in
  let flags := skipn 2 (process_argv h) in
  (exists e,
      getOptionsArray h (config_export h) = Err e /\
      run h cwd flags = Some (loading_events h cwd flags, Some e) /\
      trace = loading_events h cwd flags ++ report e) \/
  (getOptionsArray h (config_export h) = Ok [] /\
   run h cwd flags =
     Some (loading_events h cwd flags, Some (JsError "Error" "No tsup-configs found")) /\
   trace = loading_events h cwd flags
           ++ report (JsError "Error" "No tsup-configs found")) \/
  (exists configs e,
      getOptionsArray h (config_export h) = Ok configs /\
      configs <> [] /\
      all_config_entries configs = Err e /\
      run h cwd flags =
        Some (loading_events h cwd flags ++ descriptor_builds h cwd flags configs, Some e) /\
      trace = (loading_events h cwd flags ++ descriptor_builds h cwd flags configs)
              ++ report e) \/
  (exists configs raw entries,
      getOptionsArray h (config_export h) = Ok configs /\
      configs <> [] /\
      all_config_entries configs = Ok raw /\
      typed_entries raw = Some entries /\
      run h cwd flags = Some (completed_trace h cwd flags configs entries, None) /\
      trace = completed_trace h cwd flags configs entries ++ [Exit 0]).
Proof.
  intros Hmain cwd flags. unfold main in Hmain. fold cwd flags in Hmain.
  rewrite run_cases in Hmain. rewrite run_cases.
  destruct (getOptionsArray h (config_export h)) as [configs | e].
  - destruct configs as [| c configs].
    + right; left. injection Hmain as <-. repeat split.
    + destruct (all_config_entries (c :: configs)) as [raw | e] eqn:Hall.
      * destruct (typed_entries raw) as [entries |] eqn:Htyped; [| discriminate].
        right; right; right. exists (c :: configs), raw, entries.
        injection Hmain as <-. repeat split; first [discriminate | assumption].
      * right; right; left. exists (c :: configs), e.
        destruct e; injection Hmain as <-; repeat split;
          first [assumption | discriminate | reflexivity].
  - destruct (hasFlag flags "reset"); [discriminate |].
    left. exists e. destruct e; injection Hmain as <-; repeat split.
Qed.

(** *** Events by kind *)

Lemma of_kind_app (k : event_kind) (a b : list event) :
  of_kind k (a ++ b) = of_kind k a ++ of_kind k b.
Proof. apply filter_app. Qed.

Lemma of_kind_uniform (k k' : event_kind) (l : list event) :
  Forall (fun e => kind e = k') l ->
  of_kind k l = if kind_eqb k' k then l else [].
Proof.
  induction 1 as [| e l He Hl IH]; simpl.
  - destruct (kind_eqb k' k); reflexivity.
  - rewrite He, IH. destruct (kind_eqb k' k); reflexivity.
Qed.

Lemma descriptor_builds_kind (h : Host) (cwd : string) (flags : list string)
    (configs : list value) :
  Forall (fun e => kind e = KBuild) (descriptor_builds h cwd flags configs).
Proof.
  unfold descriptor_builds. induction configs; simpl; constructor; auto.
Qed.

Lemma stubs_kind (A : Type) (h : Host) (f : A -> string) (l : list A) :
  Forall (fun e => kind e = KWriteStub)
    (flat_map (fun x => generateDTSMapperFile h (f x)) l).
Proof.
  induction l; simpl; constructor; auto.
Qed.

Lemma descriptor_stubs_kind (h : Host) (flags : list string) (entries : list Entry) :
  Forall (fun e => kind e = KWriteStub) (descriptor_stubs h flags entries).
Proof.
  unfold descriptor_stubs. destruct (negb _); [apply stubs_kind | constructor].
Qed.

Lemma prebuild_stubs_kind (h : Host) :
  Forall (fun e => kind e = KWriteStub)
    (flat_map (generateDTSMapperFile h) prebuild_files).
Proof. apply (stubs_kind string h (fun f => f)). Qed.

Lemma manifest_write_kind (h : Host) (entries : list Entry) :
  Forall (fun e => kind e = KWriteFile) (manifest_write h entries).
Proof.
  unfold manifest_write. destruct (snd _) as [[path text] |]; repeat constructor.
Qed.

Lemma done_log_cases (h : Host) :
  (process_env_CI h = Some "true" /\ done_log h = []) \/
  (process_env_CI h <> Some "true" /\ done_log h = [ConsoleLog "done"]).
Proof.
  unfold done_log.
  destruct (process_env_CI h) as [s |]; [| right; split; [discriminate | reflexivity]].
  destruct (string_dec s "true") as [-> | Hne]; [left; split; reflexivity |].
  right. split; [congruence |].
  repeat match goal with
         | |- (match ?x with _ => _ end) = _ =>
             destruct x; try reflexivity
         end.
  congruence.
Qed.

Lemma done_log_kind (h : Host) : Forall (fun e => kind e = KConsoleLog) (done_log h).
Proof.
  destruct (done_log_cases h) as [[_ ->] | [_ ->]]; repeat constructor.
Qed.

Lemma of_kind_loading (k : event_kind) (h : Host) (cwd : string) (flags : list string) :
  k <> KImportConfig -> k <> KReadFile -> k <> KEmptyDir ->
  of_kind k (loading_events h cwd flags) = [].
Proof.
  intros H1 H2 H3. unfold loading_events.
  destruct (hasFlag flags "reset"); destruct k; try reflexivity; congruence.
Qed.

Lemma of_kind_report (k : event_kind) (e : js_error) :
  k <> KPrintStack -> k <> KExit -> of_kind k (report e) = [].
Proof.
  intros H1 H2. destruct e; destruct k; try reflexivity; congruence.
Qed.

(** The events of one kind in a completed run, segment by segment. *)
Lemma of_kind_completed (k : event_kind) (h : Host) (cwd : string)
    (flags : list string) (configs : list value) (entries : list Entry) :
  of_kind k (completed_trace h cwd flags configs entries) =
  of_kind k (loading_events h cwd flags)
  ++ (if kind_eqb KBuild k then descriptor_builds h cwd flags configs else [])
  ++ (if kind_eqb KWriteStub k then descriptor_stubs h flags entries else [])
  ++ (if kind_eqb KWriteFile k then manifest_write h entries else [])
  ++ (if kind_eqb KBuild k then [Build (globals_build h cwd)] else [])
  ++ (if kind_eqb KWriteStub k
      then flat_map (generateDTSMapperFile h) prebuild_files else [])
  ++ (if kind_eqb KBuild k then [Build (preset_build h cwd)] else [])
  ++ (if kind_eqb KConsoleLog k then done_log h else []).
Proof.
  unfold completed_trace. rewrite !of_kind_app.
  rewrite (of_kind_uniform k _ _ (descriptor_builds_kind h cwd flags configs)).
  rewrite (of_kind_uniform k _ _ (descriptor_stubs_kind h flags entries)).
  rewrite (of_kind_uniform k _ _ (manifest_write_kind h entries)).
  rewrite (of_kind_uniform k _ _ (prebuild_stubs_kind h)).
  rewrite (of_kind_uniform k _ _ (done_log_kind h)).
  destruct k; reflexivity.
Qed.

Lemma in_of_kind (k : event_kind) (e : event) (trace : list event) :
  In e trace -> kind e = k -> In e (of_kind k trace).
Proof.
  intros Hin Hk. apply filter_In. split; [exact Hin |].
  rewrite Hk. destruct k; reflexivity.
Qed.

Lemma of_kind_exit_loading_builds (h : Host) (cwd : string) (flags : list string)
    (configs : list value) :
  of_kind KExit (loading_events h cwd flags ++ descriptor_builds h cwd flags configs) = [].
Proof.
  rewrite of_kind_app, of_kind_loading by discriminate.
  rewrite (of_kind_uniform _ _ _ (descriptor_builds_kind h cwd flags configs)).
  reflexivity.
Qed.

Lemma of_kind_exit_completed (h : Host) (cwd : string) (flags : list string)
    (configs : list value) (entries : list Entry) :
  of_kind KExit (completed_trace h cwd flags configs entries) = [].
Proof.
  rewrite of_kind_completed, of_kind_loading by discriminate. reflexivity.
Qed.

Lemma exit_not_in (c : Z) (l : list event) : of_kind KExit l = [] -> ~ In (Exit c) l.
Proof.
  intros Hnone Hin.
  pose proof (in_of_kind KExit (Exit c) l Hin eq_refl) as H.
  rewrite Hnone in H. exact H.
Qed.

Lemma exit_zero_not_reported (l : list event) (e : js_error) :
  of_kind KExit l = [] -> ~ In (Exit 0) (l ++ report e).
Proof.
  intros Hnone Hin. apply in_app_or in Hin. destruct Hin as [Hin | Hin].
  - exact (exit_not_in 0 l Hnone Hin).
  - destruct e; simpl in Hin; intuition discriminate.
Qed.

(** A run whose trace holds [Exit 0] went all the way. *)
Lemma exit_zero_completed (h : Host) (trace : list event) :
  main h = Some trace ->
  In (Exit 0) trace ->
  exists configs raw entries,
    getOptionsArray h (config_export h) = Ok configs /\
    configs <> [] /\
    all_config_entries configs = Ok raw /\
    typed_entries raw = Some entries /\
    trace = completed_trace h (process_cwd h) (skipn 2 (process_argv h)) configs entries
            ++ [Exit 0].
Proof.
  intros Hmain Hin.
  destruct (main_cases h trace Hmain)
    as [[e [_ [_ ->]]] | [[_ [_ ->]] | [[configs [e [_ [_ [_ [_ ->]]]]]]
       | [configs [raw [entries [H1 [H2 [H3 [H4 [_ H5]]]]]]]]]]].
  - exfalso. revert Hin. apply exit_zero_not_reported.
    apply of_kind_loading; discriminate.
  - exfalso. revert Hin. apply exit_zero_not_reported.
    apply of_kind_loading; discriminate.
  - exfalso. revert Hin. apply exit_zero_not_reported.
    apply of_kind_exit_loading_builds.
  - exists configs, raw, entries. auto.
Qed.

(** A run whose trace holds [Exit 1] stopped while loading or right
    after the descriptor builds were started. *)
Lemma exit_one_failed (h : Host) (trace : list event) :
  main h = Some trace ->
  In (Exit 1) trace ->
  exists e,
    (trace = loading_events h (process_cwd h) (skipn 2 (process_argv h)) ++ report e /\
     (getOptionsArray h (config_export h) = Err e \/
      getOptionsArray h (config_export h) = Ok [])) \/
    (exists configs,
        getOptionsArray h (config_export h) = Ok configs /\
        configs <> [] /\
        all_config_entries configs = Err e /\
        trace = (loading_events h (process_cwd h) (skipn 2 (process_argv h))
                 ++ descriptor_builds h (process_cwd h) (skipn 2 (process_argv h)) configs)
                ++ report e).
Proof.
  intros Hmain Hin.
  destruct (main_cases h trace Hmain)
    as [[e [H1 [_ ->]]] | [[H1 [_ ->]] | [[configs [e [H1 [H2 [H3 [_ ->]]]]]]
       | [configs [raw [entries [_ [_ [_ [_ [_ ->]]]]]]]]]]].
  - exists e. left. auto.
  - eexists. left. split; [reflexivity | auto].
  - exists e. right. exists configs. auto.
  - exfalso. apply in_app_or in Hin. destruct Hin as [Hin | Hin].
    + exact (exit_not_in 1 _ (of_kind_exit_completed _ _ _ _ _) Hin).
    + simpl in Hin. intuition discriminate.
Qed.

(** ** What a run does and never does *)

(** X2: the output directory is emptied only under [--reset], and then
    before anything is built: the trace starts with the import of the
    configuration, the read of the manifest and the emptying of [dist],
    and holds no other [EmptyDir]. *)
Theorem reset_empties_dist_first (h : Host) (trace : list event) :
  main h = Some trace ->
  let flags := skipn 2 (process_argv h) in
  let host := host_platform h in
  let emptied := [EmptyDir (join host [process_cwd h; "dist"])] in
  of_kind KEmptyDir trace = (if hasFlag flags "reset" then emptied else []) /\
  exists rest,
    trace = [ImportConfig (join host [process_cwd h; "tsup.config.ts"]);
             ReadFile (join host [process_cwd h; "package.json"])]
            ++ (if hasFlag flags "reset" then emptied else []) ++ rest /\
    of_kind KEmptyDir rest = [].
Proof.
  intros Hmain flags host emptied.
  assert (Hload : forall rest, of_kind KEmptyDir rest = [] ->
            of_kind KEmptyDir (loading_events h (process_cwd h) flags ++ rest) =
              (if hasFlag flags "reset" then emptied else []) /\
            exists rest',
              loading_events h (process_cwd h) flags ++ rest =
              [ImportConfig (join host [process_cwd h; "tsup.config.ts"]);
               ReadFile (join host [process_cwd h; "package.json"])]
              ++ (if hasFlag flags "reset" then emptied else []) ++ rest' /\
              of_kind KEmptyDir rest' = []).
  { intros rest Hrest. split.
    - rewrite of_kind_app, Hrest. unfold loading_events.
      destruct (hasFlag flags "reset"); reflexivity.
    - exists rest. split; [| exact Hrest].
      unfold loading_events. rewrite <- app_assoc. reflexivity. }
  destruct (main_cases h trace Hmain)
    as [[e [_ [_ ->]]] | [[_ [_ ->]] | [[configs [e [_ [_ [_ [_ ->]]]]]]
       | [configs [raw [entries [_ [_ [_ [_ [_ ->]]]]]]]]]]].
  - apply Hload. apply of_kind_report; discriminate.
  - apply Hload. apply of_kind_report; discriminate.
  - rewrite <- app_assoc. apply Hload.
    rewrite of_kind_app, of_kind_report by discriminate.
    rewrite (of_kind_uniform _ _ _ (descriptor_builds_kind _ _ _ _)). reflexivity.
  - unfold completed_trace. rewrite <- app_assoc. apply Hload.
    rewrite !of_kind_app.
    rewrite (of_kind_uniform _ _ _ (descriptor_builds_kind _ _ _ _)).
    rewrite (of_kind_uniform _ _ _ (descriptor_stubs_kind _ _ _)).
    rewrite (of_kind_uniform _ _ _ (manifest_write_kind _ _)).
    rewrite (of_kind_uniform _ _ _ (prebuild_stubs_kind _)).
    rewrite (of_kind_uniform _ _ _ (done_log_kind _)).
    reflexivity.
Qed.

Lemma reset_empties_dist_first_witness :
  let h := example_host Posix ["node"; "core-bundle.ts"; "--reset"]
             example_config example_manifest no_calls in
  exists trace,
    main h = Some trace /\
    of_kind KEmptyDir trace = [EmptyDir "/repo/code/core/dist"].
Proof.
  intros h.
  set (trace := match main h with Some t => t | None => [] end).
  assert (Hmain : main h = Some trace) by (vm_compute; reflexivity).
  exists trace. split; [exact Hmain |].
  destruct (reset_empties_dist_first h trace Hmain) as [Hempty _].
  rewrite Hempty. reflexivity.
Defined.

(** X3: the manifest is written at most once, to [package.json] of the
    working directory: in a run that exits with 0 and whose manifest
    passes the gate there is that one write; a manifest that fails the
    gate, or a run that exits with 1, leaves no [writeFile] at all. *)
Theorem manifest_written_at_most_once (h : Host) (trace : list event) :
  main h = Some trace ->
  (exports_gate (manifest h) = false -> of_kind KWriteFile trace = []) /\
  (In (Exit 1) trace -> of_kind KWriteFile trace = []) /\
  (In (Exit 0) trace -> exports_gate (manifest h) = true ->
   exists text,
     of_kind KWriteFile trace =
     [WriteFile (join (host_platform h) [process_cwd h; "package.json"]) text]).
Proof.
  intros Hmain.
  assert (Hfail : forall l e, of_kind KWriteFile l = [] ->
            of_kind KWriteFile (l ++ report e) = []).
  { intros l e Hl. rewrite of_kind_app, Hl, of_kind_report by discriminate.
    reflexivity. }
  assert (Hlb : forall configs,
            of_kind KWriteFile
              (loading_events h (process_cwd h) (skipn 2 (process_argv h))
               ++ descriptor_builds h (process_cwd h) (skipn 2 (process_argv h)) configs)
            = []).
  { intros configs. rewrite of_kind_app, of_kind_loading by discriminate.
    rewrite (of_kind_uniform _ _ _ (descriptor_builds_kind _ _ _ _)). reflexivity. }
  assert (Hdone : forall configs entries,
            of_kind KWriteFile
              (completed_trace h (process_cwd h) (skipn 2 (process_argv h)) configs entries
               ++ [Exit 0]) = manifest_write h entries).
  { intros configs entries.
    rewrite of_kind_app, of_kind_completed, of_kind_loading by discriminate.
    cbn [kind_eqb app of_kind filter kind]. rewrite !app_nil_r. reflexivity. }
  split; [| split].
  - intros Hgate.
    destruct (main_cases h trace Hmain)
      as [[e [_ [_ ->]]] | [[_ [_ ->]] | [[configs [e [_ [_ [_ [_ ->]]]]]]
         | [configs [raw [entries [_ [_ [_ [_ [_ ->]]]]]]]]]]].
    + apply Hfail, of_kind_loading; discriminate.
    + apply Hfail, of_kind_loading; discriminate.
    + apply Hfail, Hlb.
    + rewrite Hdone. unfold manifest_write, updatePackageJson.
      rewrite Hgate. reflexivity.
  - intros Hin.
    destruct (exit_one_failed h trace Hmain Hin)
      as [e [[-> _] | [configs [_ [_ [_ ->]]]]]].
    + apply Hfail, of_kind_loading; discriminate.
    + apply Hfail, Hlb.
  - intros Hin Hgate.
    destruct (exit_zero_completed h trace Hmain Hin)
      as [configs [raw [entries [_ [_ [_ [_ ->]]]]]]].
    rewrite Hdone. unfold manifest_write, updatePackageJson.
    rewrite Hgate. cbn [snd]. eexists. reflexivity.
Qed.

Lemma manifest_written_at_most_once_witness :
  let h := example_host Posix ["node"; "core-bundle.ts"]
             example_config [("name", VStr "x"); ("exports", VStr "./index.js")]
             no_calls in
  exists trace,
    main h = Some trace /\
    exports_gate (manifest h) = false /\
    of_kind KWriteFile trace = [].
Proof.
  intros h.
  set (trace := match main h with Some t => t | None => [] end).
  assert (Hmain : main h = Some trace) by (vm_compute; reflexivity).
  exists trace. split; [exact Hmain |].
  split; [reflexivity |].
  destruct (manifest_written_at_most_once h trace Hmain) as [Hgate _].
  apply Hgate. reflexivity.
Defined.

(** X4: the word [done] is logged once, at the end of a run that exits with
    0, unless the environment variable [CI] is ["true"]; a run that exits
    with 1 logs nothing. *)
Theorem done_logged_unless_ci (h : Host) (trace : list event) :
  main h = Some trace ->
  (process_env_CI h = Some "true" -> of_kind KConsoleLog trace = []) /\
  (In (Exit 1) trace -> of_kind KConsoleLog trace = []) /\
  (In (Exit 0) trace -> process_env_CI h <> Some "true" ->
   of_kind KConsoleLog trace = [ConsoleLog "done"]).
Proof.
  intros Hmain.
  assert (Hfail : forall l e, of_kind KConsoleLog l = [] ->
            of_kind KConsoleLog (l ++ report e) = []).
  { intros l e Hl. rewrite of_kind_app, Hl, of_kind_report by discriminate.
    reflexivity. }
  assert (Hlb : forall configs,
            of_kind KConsoleLog
              (loading_events h (process_cwd h) (skipn 2 (process_argv h))
               ++ descriptor_builds h (process_cwd h) (skipn 2 (process_argv h)) configs)
            = []).
  { intros configs. rewrite of_kind_app, of_kind_loading by discriminate.
    rewrite (of_kind_uniform _ _ _ (descriptor_builds_kind _ _ _ _)). reflexivity. }
  assert (Hdone : forall configs entries,
            of_kind KConsoleLog
              (completed_trace h (process_cwd h) (skipn 2 (process_argv h)) configs entries
               ++ [Exit 0]) = done_log h).
  { intros configs entries.
    rewrite of_kind_app, of_kind_completed, of_kind_loading by discriminate.
    cbn [kind_eqb app of_kind filter kind]. rewrite !app_nil_r. reflexivity. }
  split; [| split].
  - intros Hci.
    destruct (main_cases h trace Hmain)
      as [[e [_ [_ ->]]] | [[_ [_ ->]] | [[configs [e [_ [_ [_ [_ ->]]]]]]
         | [configs [raw [entries [_ [_ [_ [_ [_ ->]]]]]]]]]]].
    + apply Hfail, of_kind_loading; discriminate.
    + apply Hfail, of_kind_loading; discriminate.
    + apply Hfail, Hlb.
    + rewrite Hdone. destruct (done_log_cases h) as [[_ H] | [H _]]; [exact H | contradiction].
  - intros Hin.
    destruct (exit_one_failed h trace Hmain Hin)
      as [e [[-> _] | [configs [_ [_ [_ ->]]]]]].
    + apply Hfail, of_kind_loading; discriminate.
    + apply Hfail, Hlb.
  - intros Hin Hci.
    destruct (exit_zero_completed h trace Hmain Hin)
      as [configs [raw [entries [_ [_ [_ [_ ->]]]]]]].
    rewrite Hdone. destruct (done_log_cases h) as [[H _] | [_ H]]; [contradiction | exact H].
Qed.

Lemma done_logged_unless_ci_witness :
  let h := example_host Posix ["node"; "core-bundle.ts"]
             example_config example_manifest no_calls in
  exists trace,
    main h = Some trace /\
    In (Exit 0) trace /\
    process_env_CI h <> Some "true" /\
    of_kind KConsoleLog trace = [ConsoleLog "done"].
Proof.
  intros h.
  set (trace := match main h with Some t => t | None => [] end).
  assert (Hmain : main h = Some trace) by (vm_compute; reflexivity).
  assert (Hin : In (Exit 0) trace) by (vm_compute; auto 20).
  assert (Hci : process_env_CI h <> Some "true") by discriminate.
  exists trace. split; [exact Hmain |]. split; [exact Hin |]. split; [exact Hci |].
  destruct (done_logged_unless_ci h trace Hmain) as [_ [_ Hlog]].
  apply Hlog; assumption.
Defined.

Lemma typed_entries_length (raw : list (value * value)) (entries : list Entry) :
  typed_entries raw = Some entries -> List.length entries = List.length raw.
Proof.
  revert entries.
  induction raw as [| fv raw IH]; intros entries; simpl.
  - intros H. injection H as <-. reflexivity.
  - destruct (typed_entry fv); [| discriminate].
    destruct (typed_entries raw) as [es |]; [| discriminate].
    intros H. injection H as <-. simpl. rewrite (IH es eq_refl). reflexivity.
Qed.

Lemma stubs_length (A : Type) (h : Host) (f : A -> string) (l : list A) :
  List.length (flat_map (fun x => generateDTSMapperFile h (f x)) l) = List.length l.
Proof.
  induction l; simpl; auto.
Qed.

(** X5: the stubs of a run that exits with 0: one per (file, format) pair of
    the descriptors, in their order, unless [--optimized] is given, and
    then the three of the runtime-globals files.  So a file built in two
    formats has its stub written twice. *)
Theorem stub_writes_of_run (h : Host) (trace : list event) :
  main h = Some trace ->
  In (Exit 0) trace ->
  let flags := skipn 2 (process_argv h) in
  exists configs raw entries,
    getOptionsArray h (config_export h) = Ok configs /\
    all_config_entries configs = Ok raw /\
    typed_entries raw = Some entries /\
    of_kind KWriteStub trace =
      (if hasFlag flags "optimized" then []
       else flat_map (fun e => generateDTSMapperFile h (file e)) entries)
      ++ flat_map (generateDTSMapperFile h) prebuild_files /\
    List.length (of_kind KWriteStub trace) =
      ((if hasFlag flags "optimized" then 0 else List.length raw) + 3)%nat.
Proof.
  intros Hmain Hin flags.
  destruct (exit_zero_completed h trace Hmain Hin)
    as [configs [raw [entries [H1 [_ [H3 [H4 ->]]]]]]].
  exists configs, raw, entries.
  assert (Hstubs :
    of_kind KWriteStub
      (completed_trace h (process_cwd h) (skipn 2 (process_argv h)) configs entries
       ++ [Exit 0]) =
    (if hasFlag flags "optimized" then []
     else flat_map (fun e => generateDTSMapperFile h (file e)) entries)
    ++ flat_map (generateDTSMapperFile h) prebuild_files).
  { rewrite of_kind_app, of_kind_completed, of_kind_loading by discriminate.
    cbn [kind_eqb app of_kind filter kind]. rewrite !app_nil_r.
    unfold descriptor_stubs. fold flags.
    destruct (hasFlag flags "optimized"); reflexivity. }
  repeat split; auto.
  rewrite Hstubs, length_app.
  assert (Hpre : List.length (flat_map (generateDTSMapperFile h) prebuild_files) = 3%nat)
    by reflexivity.
  rewrite Hpre.
  destruct (hasFlag flags "optimized"); [reflexivity |].
  rewrite (stubs_length Entry h file entries), (typed_entries_length raw entries H4).
  reflexivity.
Qed.

Lemma stub_writes_of_run_witness :
  let h := example_host Posix ["node"; "core-bundle.ts"]
             example_config example_manifest no_calls in
  exists trace,
    main h = Some trace /\
    In (Exit 0) trace /\
    of_kind KWriteStub trace =
      [ WriteStub "/repo/code/core/dist/index.d.ts" "index.ts";
        WriteStub "/repo/code/core/dist/index.d.ts" "index.ts";
        WriteStub "/repo/code/core/dist/prebuild/manager/runtime.d.ts" "runtime.ts";
        WriteStub "/repo/code/core/dist/prebuild/manager/globals-runtime.d.ts"
          "globals-runtime.ts";
        WriteStub "/repo/code/core/dist/prebuild/preview/globals-runtime.d.ts"
          "globals-runtime.ts" ].
Proof.
  intros h.
  set (trace := match main h with Some t => t | None => [] end).
  assert (Hmain : main h = Some trace) by (vm_compute; reflexivity).
  assert (Hin : In (Exit 0) trace) by (vm_compute; auto 20).
  exists trace. split; [exact Hmain |]. split; [exact Hin |].
  destruct (stub_writes_of_run h trace Hmain Hin)
    as [configs [raw [entries [Hconfigs [Hraw [Htyped [Hstubs _]]]]]]].
  rewrite Hstubs.
  assert (Hc : getOptionsArray h (config_export h) = Ok [example_config]) by reflexivity.
  rewrite Hc in Hconfigs. injection Hconfigs as <-.
  vm_compute in Hraw. injection Hraw as <-.
  vm_compute in Htyped. injection Htyped as <-.
  reflexivity.
Defined.



(** ** Failures of the configuration *)

(** X7: without [--reset], a configuration function that throws, or
    whose promise rejects, fails the run before any build: after the
    import and the manifest read were started, the stack is printed when
    the thrown value is an [Error], and the process exits with 1. *)
Theorem config_function_failure_is_fatal (h : Host) (f : string) (e : js_error) :
  hasFlag (skipn 2 (process_argv h)) "reset" = false ->
  config_export h = VFun f ->
  call h f (VObj []) = Throws e \/ call h f (VObj []) = Rejects e ->
  main h =
  Some ([ImportConfig (join (host_platform h) [process_cwd h; "tsup.config.ts"]);
         ReadFile (join (host_platform h) [process_cwd h; "package.json"])]
        ++ match e with
           | JsError name message => [PrintStack name message; Exit 1]
           | JsThrown _ => [Exit 1]
           end).
Proof.
  intros Hreset Hconfig Hcall.
  assert (Herr : getOptionsArray h (config_export h) = Err e).
  { rewrite Hconfig. unfold getOptionsArray. cbn.
    destruct Hcall as [-> | ->]; reflexivity. }
  unfold main. rewrite run_cases, Herr, Hreset.
  unfold loading_events. rewrite Hreset. destruct e; reflexivity.
Qed.

Lemma config_function_failure_is_fatal_witness :
  let h := example_host Posix ["node"; "core-bundle.ts"; "--optimized"] (VFun "config")
             example_manifest (fun _ _ => Rejects (JsThrown (VStr "boom"))) in
  hasFlag (skipn 2 (process_argv h)) "reset" = false /\
  config_export h = VFun "config" /\
  call h "config" (VObj []) = Rejects (JsThrown (VStr "boom")) /\
  main h = Some [ ImportConfig "/repo/code/core/tsup.config.ts";
                  ReadFile "/repo/code/core/package.json";
                  Exit 1 ].
Proof.
  intros h.
  assert (Hreset : hasFlag (skipn 2 (process_argv h)) "reset" = false) by reflexivity.
  assert (Hconfig : config_export h = VFun "config") by reflexivity.
  assert (Hcall : call h "config" (VObj []) = Rejects (JsThrown (VStr "boom")))
    by reflexivity.
  split; [exact Hreset |]. split; [exact Hconfig |]. split; [exact Hcall |].
  rewrite (config_function_failure_is_fatal h "config" (JsThrown (VStr "boom"))
             Hreset Hconfig (or_intror Hcall)).
  reflexivity.
Defined.

Lemma config_entries_defined (c : value) :
  c <> VNull -> c <> VUndefined -> exists l, config_entries c = Ok l.
Proof.
  intros Hnull Hundef. unfold config_entries.
  destruct c; try congruence;
    match goal with
    | |- context [if ?b then _ else _] => destruct b; eexists; reflexivity
    end.
Qed.

Lemma config_entries_null (c : value) :
  c = VNull \/ c = VUndefined -> exists e, config_entries c = Err e.
Proof.
  intros [-> | ->]; eexists; reflexivity.
Qed.

Lemma all_config_entries_null (configs : list value) :
  In VNull configs \/ In VUndefined configs ->
  exists e, all_config_entries configs = Err e.
Proof.
  induction configs as [| c configs IH]; simpl.
  - intros [[] | []].
  - intros Hin.
    destruct (config_entries c) as [l | e] eqn:Hc; [| eauto].
    assert (Hrest : In VNull configs \/ In VUndefined configs).
    { destruct Hin as [[-> | H] | [-> | H]]; auto; discriminate Hc. }
    destruct (IH Hrest) as [e ->]. eauto.
Qed.

Lemma all_config_entries_error (configs : list value) (e : js_error) :
  all_config_entries configs = Err e ->
  (In VNull configs \/ In VUndefined configs) /\ exists m, e = JsError "TypeError" m.
Proof.
  induction configs as [| c configs IH]; simpl; [discriminate |].
  destruct (config_entries c) as [l | e'] eqn:Hc.
  - destruct (all_config_entries configs) as [l' | e'']; [discriminate |].
    intros H. injection H as <-. destruct (IH eq_refl) as [[Hin | Hin] Hm]; auto.
  - intros H. injection H as <-.
    destruct c; try (unfold config_entries in Hc;
                     match type of Hc with
                     | context [if ?b then _ else _] => destruct b; discriminate Hc
                     end).
    + unfold config_entries in Hc. injection Hc as <-. split; [auto | eauto].
    + unfold config_entries in Hc. injection Hc as <-. split; [auto | eauto].
Qed.

(** X8: a [null] or [undefined] descriptor in the list is found only when
    the entries are collected, after a build was started for every
    descriptor: the run then rejects with a [TypeError], prints its stack
    and exits with 1.  Nothing else makes the collection fail. *)
Theorem null_descriptor_fails_after_builds (h : Host) (configs : list value) :
  getOptionsArray h (config_export h) = Ok configs ->
  (In VNull configs \/ In VUndefined configs <->
   exists e, all_config_entries configs = Err e) /\
  (In VNull configs \/ In VUndefined configs ->
   exists message,
     main h =
     Some ((loading_events h (process_cwd h) (skipn 2 (process_argv h))
            ++ descriptor_builds h (process_cwd h) (skipn 2 (process_argv h)) configs)
           ++ [PrintStack "TypeError" message; Exit 1])).
Proof.
  intros Hconfigs. split.
  - split; [apply all_config_entries_null |].
    intros [e He]. exact (proj1 (all_config_entries_error configs e He)).
  - intros Hin.
    destruct (all_config_entries_null configs Hin) as [e He].
    destruct (all_config_entries_error configs e He) as [_ [m ->]].
    exists m. unfold main. rewrite run_cases, Hconfigs.
    destruct configs as [| c configs]; [destruct Hin as [[] | []] |].
    rewrite He. reflexivity.
Qed.

Lemma null_descriptor_fails_after_builds_witness :
  let h := example_host Posix ["node"; "core-bundle.ts"]
             (VArr [example_config; VNull]) example_manifest no_calls in
  getOptionsArray h (config_export h) = Ok [example_config; VNull] /\
  exists message,
    main h =
    Some ((loading_events h (process_cwd h) (skipn 2 (process_argv h))
           ++ descriptor_builds h (process_cwd h) (skipn 2 (process_argv h))
                [example_config; VNull])
          ++ [PrintStack "TypeError" message; Exit 1]).
Proof.
  intros h.
  assert (Hconfigs : getOptionsArray h (config_export h) = Ok [example_config; VNull])
    by reflexivity.
  split; [exact Hconfigs |].
  destruct (null_descriptor_fails_after_builds h _ Hconfigs) as [_ Hfail].
  apply Hfail. left. simpl. auto.
Defined.

(** ** Flags and options *)

(** X9: a flag is set exactly when some argument starts with [--] followed
    by its name: [--watch=src] and [--watcher] both set [watch]. *)
Theorem hasFlag_prefix_match (flags : list string) (name : string) :
  hasFlag flags name = true <->
  exists s, In s flags /\ String.prefix ("--" ++ name)%string s = true.
Proof.
  unfold hasFlag. split.
  - destruct (find _ flags) as [s |] eqn:Hfind; [| discriminate].
    intros _. apply find_some in Hfind. exists s. exact Hfind.
  - intros [s [Hin Hs]].
    destruct (find (fun s0 => String.prefix ("--" ++ name)%string s0) flags)
      as [s' |] eqn:Hfind.
    + apply find_some in Hfind. destruct Hfind as [_ Hs'].
      destruct s'; [discriminate Hs' | reflexivity].
    + pose proof (find_none _ _ Hfind s Hin) as Hno. cbv beta in Hno. congruence.
Qed.

(** X10: the options of a descriptor's build: [watch] is the flag and [clean]
    is [false] whatever the descriptor says; every other field is the
    descriptor's when it has one and the default otherwise, so [outDir]
    defaults to [dist] under the working directory and [silent] to the
    negation of [watch]. *)
Theorem build_options_layers (h : Host) (cwd : string) (flags : list string)
    (config : value) :
  exists merged,
    build_options h cwd flags config = VObj merged /\
    obj_get_own merged "watch" = Some (VBool (hasFlag flags "watch")) /\
    obj_get_own merged "clean" = Some (VBool false) /\
    obj_get_own merged "outDir" =
      Some (match obj_get_own (own_enumerable config) "outDir" with
            | Some v => v
            | None => VStr (join (host_platform h) [cwd; "dist"])
            end) /\
    obj_get_own merged "silent" =
      Some (match obj_get_own (own_enumerable config) "silent" with
            | Some v => v
            | None => VBool (negb (hasFlag flags "watch"))
            end) /\
    forall k,
      obj_get_own merged k =
      if String.eqb k "watch" then Some (VBool (hasFlag flags "watch"))
      else if String.eqb k "clean" then Some (VBool false)
      else match obj_get_own (own_enumerable config) k with
           | Some v => Some v
           | None =>
               obj_get_own
                 (fst (getBaseOptions (host_platform h) (hasFlag flags "watch")
                         (hasFlag flags "optimized") cwd)) k
           end.
Proof.
  eexists. split; [reflexivity |].
  repeat split.
  - rewrite obj_get_own_spread. reflexivity.
  - rewrite obj_get_own_spread. reflexivity.
  - rewrite !obj_get_own_spread. cbn [own_enumerable snd fst getBaseOptions obj_get_own].
    cbn. destruct (obj_get_own (own_enumerable config) "outDir"); reflexivity.
  - rewrite !obj_get_own_spread. cbn [own_enumerable snd fst getBaseOptions obj_get_own].
    cbn. destruct (obj_get_own (own_enumerable config) "silent"); reflexivity.
  - intros k.
    destruct (String.eqb_spec k "watch") as [-> | Hw];
      [rewrite obj_get_own_spread; reflexivity |].
    destruct (String.eqb_spec k "clean") as [-> | Hc];
      [rewrite obj_get_own_spread; reflexivity |].
    apply String.eqb_neq in Hw. apply String.eqb_neq in Hc.
    rewrite !obj_get_own_spread.
    cbn [own_enumerable snd fst getBaseOptions].
    rewrite String.eqb_sym in Hw. rewrite String.eqb_sym in Hc.
    cbn [obj_get_own]. rewrite Hw, Hc.
    destruct (obj_get_own (own_enumerable config) k); [reflexivity |].
    match goal with |- match ?x with _ => _ end = _ => destruct x; reflexivity end.
Qed.

(** ** Entries *)

Lemma obj_values_indexed (i : nat) (l : list value) : obj_values (indexed i l) = l.
Proof.
  revert i. induction l as [| v l IH]; intros i; simpl; [reflexivity |].
  unfold obj_values in IH. rewrite IH. reflexivity.
Qed.

Lemma flat_map_pairs (files formats : list value) :
  flat_map (fun file => map (fun format => (file, format)) formats) files =
  list_prod files formats.
Proof.
  induction files as [| f files IH]; simpl; [reflexivity | now rewrite IH].
Qed.

(** X11: the (file, format) pairs of one descriptor, by the shape of its
    [entry]: every element of an array and every value of a mapping (the
    names are dropped) is crossed with every format, a scalar format
    counting as a list of one; a string is split into one file per
    character; a missing, empty or otherwise shaped [entry] gives no
    pair. *)
Theorem config_entries_shapes (o : obj) :
  config_entries (VObj o) =
  let formats := concat_into_empty (js_get o "format") in
  match js_get o "entry" with
  | VArr files => Ok (list_prod files formats)
  | VObj mapping => Ok (list_prod (obj_values mapping) formats)
  | VStr s => Ok (list_prod (chars s) formats)
  | _ => Ok []
  end.
Proof.
  unfold config_entries, Object_values.
  destruct (js_get o "entry") as [| | b | n | s | files | mapping | name];
    cbn [truthy negb own_enumerable]; rewrite ?flat_map_pairs.
  - reflexivity.
  - reflexivity.
  - destruct b; reflexivity.
  - destruct (negb (n =? 0)%Z); reflexivity.
  - destruct s as [| c s]; [reflexivity |].
    cbn [String.eqb negb]. rewrite obj_values_indexed. reflexivity.
  - reflexivity.
  - reflexivity.
  - reflexivity.
Qed.

(** ** Groups of the export map *)

(** What the table read gives for a tag: a condition of the table with
    its extension, nothing, or a member every object inherits. *)
Lemma formatToType_cases (fmt : string) :
  (fmt = "cjs" /\ js_get formatToType fmt = VStr "require"
               /\ js_get formatToExt fmt = VStr ".js") \/
  (fmt = "esm" /\ js_get formatToType fmt = VStr "module"
               /\ js_get formatToExt fmt = VStr ".mjs") \/
  (fmt = "iife" /\ js_get formatToType fmt = VStr "module"
                /\ js_get formatToExt fmt = VStr ".js") \/
  js_get formatToType fmt = VUndefined \/
  (exists name, js_get formatToType fmt = VFun name) \/
  js_get formatToType fmt = VObj Object_prototype.
Proof.
  destruct (String.eqb_spec "cjs" fmt) as [<- | H1]; [left; repeat split |].
  destruct (String.eqb_spec "esm" fmt) as [<- | H2]; [right; left; repeat split |].
  destruct (String.eqb_spec "iife" fmt) as [<- | H3];
    [right; right; left; repeat split |].
  right; right; right.
  apply String.eqb_neq in H1, H2, H3.
  unfold js_get, formatToType. cbn [obj_get_own]. rewrite H1, H2, H3.
  destruct (String.eqb fmt "__proto__"); [right; right; reflexivity |].
  unfold Object_prototype. cbn [obj_get_own].
  repeat match goal with
         | |- context [String.eqb ?f fmt] =>
             destruct (String.eqb f fmt); [right; left; eexists; reflexivity |]
         end.
  left. reflexivity.
Qed.

Lemma condition_never_types (fmt : string) :
  truthy (js_get formatToType fmt) = true ->
  to_string (js_get formatToType fmt) <> "types".
Proof.
  destruct (formatToType_cases fmt)
    as [[_ [-> _]] | [[_ [-> _]] | [[_ [-> _]] | [-> | [[name ->] | ->]]]]];
    cbn; intros; discriminate.
Qed.

Lemma group_entry_well_formed (host : platform) (acc : obj) (e : Entry) :
  groups_well_formed acc -> groups_well_formed (group_entry host acc e).
Proof.
  intros Hwf. unfold group_entry.
  destruct (truthy (js_get formatToType (format e))) eqn:Htruthy; [| exact Hwf].
  cbn [negb].
  destruct (output_key_dot_slash host (file e)) as [rest Hkey]. rewrite Hkey.
  intros k v Hget.
  destruct (string_dec k (String "." (String "/" rest))) as [-> | Hne].
  - rewrite obj_get_own_set_same in Hget. injection Hget as <-.
    eexists. split; [reflexivity |].
    rewrite obj_get_own_set_other
      by (intros Heq; symmetry in Heq; revert Heq; apply condition_never_types;
          exact Htruthy).
    rewrite js_get_dot_slash.
    destruct (obj_get_own acc (String "." (String "/" rest))) as [v0 |] eqn:Hold.
    + destruct (Hwf _ _ Hold) as [g [-> Htypes]]. exact Htypes.
    + reflexivity.
  - rewrite obj_get_own_set_other in Hget by exact Hne. exact (Hwf k v Hget).
Qed.

Lemma group_entries_well_formed_from (host : platform) (entries : list Entry) (acc : obj) :
  groups_well_formed acc -> groups_well_formed (fold_left (group_entry host) entries acc).
Proof.
  revert acc. induction entries as [| e es IH]; intros acc Hwf; simpl; [exact Hwf |].
  apply IH, group_entry_well_formed, Hwf.
Qed.

(** X12: whatever the entries are, every value of the grouped map is an
    object whose [types] is the key followed by [.d.ts]: no entry
    overwrites or drops it. *)
Theorem every_group_has_types (host : platform) (entries : list Entry)
    (k : string) (v : value) :
  obj_get_own (group_entries host entries) k = Some v ->
  exists g, v = VObj g /\ obj_get_own g "types" = Some (VStr (k ++ ".d.ts")%string).
Proof.
  apply (group_entries_well_formed_from host entries []).
  intros k' v' H. discriminate H.
Qed.

Lemma every_group_has_types_witness :
  let entries := [ mk_entry "./src/a.ts" "esm"; mk_entry "./src/b.ts" "toString";
                   mk_entry "./src/a.ts" "cjs" ] in
  exists v g,
    obj_get_own (group_entries Posix entries) "./dist/b" = Some v /\
    v = VObj g /\
    obj_get_own g "types" = Some (VStr "./dist/b.d.ts").
Proof.
  intros entries.
  assert (Hget : obj_get_own (group_entries Posix entries) "./dist/b" =
                 Some (VObj [ ("types", VStr "./dist/b.d.ts");
                              ("function toString() { [native code] }",
                               VStr "./dist/bfunction toString() { [native code] }") ]))
    by reflexivity.
  destruct (every_group_has_types Posix entries _ _ Hget) as [g [Hv Htypes]].
  eexists. exists g. split; [exact Hget |]. split; [exact Hv | exact Htypes].
Defined.

Lemma condition_extension (fmt cond : string) (exts : list string) :
  (cond = "require" /\ exts = [".js"]) \/ (cond = "module" /\ exts = [".mjs"; ".js"]) ->
  truthy (js_get formatToType fmt) = true ->
  to_string (js_get formatToType fmt) = cond ->
  exists x, to_string (js_get formatToExt fmt) = x /\ In x exts.
Proof.
  intros Hcond Htruthy Hname.
  destruct (formatToType_cases fmt)
    as [[_ [Ht Hx]] | [[_ [Ht Hx]] | [[_ [Ht Hx]] | [Ht | [[name Ht] | Ht]]]]];
    rewrite Ht in Hname, Htruthy; try rewrite Hx;
    destruct Hcond as [[-> ->] | [-> ->]];
    try discriminate Hname; try discriminate Htruthy;
    eexists; (split; [reflexivity | simpl; auto]).
Qed.

Lemma group_entry_keeps_condition (host : platform) (acc : obj) (e : Entry)
    (key cond : string) (exts : list string) :
  (cond = "require" /\ exts = [".js"]) \/ (cond = "module" /\ exts = [".mjs"; ".js"]) ->
  has_condition acc key cond exts ->
  has_condition (group_entry host acc e) key cond exts.
Proof.
  intros Hcond [g [x [Hget [Hcondition Hx]]]]. unfold group_entry.
  destruct (truthy (js_get formatToType (format e))) eqn:Htruthy;
    [| exists g, x; auto].
  cbn [negb].
  destruct (string_dec (output_key host (file e)) key) as [Hsame | Hne].
  - subst key.
    destruct (output_key_dot_slash host (file e)) as [rest Hkey].
    rewrite Hkey in *.
    rewrite js_get_dot_slash, Hget.
    destruct (string_dec (to_string (js_get formatToType (format e))) cond)
      as [Hname | Hother].
    + destruct (condition_extension _ _ _ Hcond Htruthy Hname) as [x' [Hx' Hin]].
      eexists. exists x'. split; [apply obj_get_own_set_same |].
      split; [| exact Hin].
      rewrite Hname, obj_get_own_set_same, Hx'. reflexivity.
    + eexists. exists x. split; [apply obj_get_own_set_same |].
      split; [| exact Hx].
      rewrite obj_get_own_set_other by congruence. exact Hcondition.
  - exists g, x. split; [| auto].
    rewrite obj_get_own_set_other by congruence. exact Hget.
Qed.

Lemma group_entries_keep_condition (host : platform) (entries : list Entry) (acc : obj)
    (key cond : string) (exts : list string) :
  (cond = "require" /\ exts = [".js"]) \/ (cond = "module" /\ exts = [".mjs"; ".js"]) ->
  has_condition acc key cond exts ->
  has_condition (fold_left (group_entry host) entries acc) key cond exts.
Proof.
  intros Hcond. revert acc.
  induction entries as [| e es IH]; intros acc H; simpl; [exact H |].
  apply IH, group_entry_keeps_condition; assumption.
Qed.

Lemma group_entry_sets_condition (host : platform) (acc : obj) (f fmt : string) :
  In fmt known_formats ->
  has_condition (group_entry host acc (mk_entry f fmt)) (output_key host f)
    (to_string (js_get formatToType fmt)) [to_string (js_get formatToExt fmt)].
Proof.
  intros Hin. unfold group_entry. cbn [file format].
  assert (Htruthy : truthy (js_get formatToType fmt) = true)
    by (destruct Hin as [<- | [<- | [<- | []]]]; reflexivity).
  rewrite Htruthy. cbn [negb].
  eexists. exists (to_string (js_get formatToExt fmt)).
  split; [apply obj_get_own_set_same |].
  split; [apply obj_get_own_set_same | simpl; auto].
Qed.

Lemma has_condition_weaken (acc : obj) (key cond : string) (exts exts' : list string) :
  incl exts exts' -> has_condition acc key cond exts -> has_condition acc key cond exts'.
Proof.
  intros Hincl [g [x [H1 [H2 H3]]]]. exists g, x. auto.
Qed.

Lemma group_entries_condition_from (host : platform) (entries : list Entry) (acc : obj)
    (e : Entry) :
  In e entries ->
  (format e = "cjs" ->
   has_condition (fold_left (group_entry host) entries acc)
     (output_key host (file e)) "require" [".js"]) /\
  (format e = "esm" \/ format e = "iife" ->
   has_condition (fold_left (group_entry host) entries acc)
     (output_key host (file e)) "module" [".mjs"; ".js"]).
Proof.
  revert acc.
  induction entries as [| e0 es IH]; intros acc Hin; [destruct Hin |].
  destruct Hin as [-> | Hin]; [| exact (IH _ Hin)].
  simpl. destruct e as [f fmt]. cbn [file format]. split.
  - intros ->. apply group_entries_keep_condition; [auto |].
    apply (group_entry_sets_condition host acc f "cjs"). simpl; auto.
  - intros Hfmt. apply group_entries_keep_condition; [auto |].
    destruct Hfmt as [-> | ->].
    + apply (has_condition_weaken _ _ _ [".mjs"]);
        [intros x [<- | []]; simpl; auto |].
      apply (group_entry_sets_condition host acc f "esm"). simpl; auto.
    + apply (has_condition_weaken _ _ _ [".js"]);
        [intros x [<- | []]; simpl; auto |].
      apply (group_entry_sets_condition host acc f "iife"). simpl; auto.
Qed.

(** X13: every entry with a known format leaves its condition in the group
    of its output key, wherever it stands in the list and whatever the
    other entries are: a CommonJS entry a [require] ending in [.js], an
    ESM or IIFE entry a [module] ending in [.mjs] or [.js]. *)
Theorem known_entry_leaves_condition (host : platform) (entries : list Entry)
    (e : Entry) :
  In e entries ->
  let key := output_key host (file e) in
  (format e = "cjs" ->
   exists g,
     obj_get_own (group_entries host entries) key = Some (VObj g) /\
     obj_get_own g "require" = Some (VStr (key ++ ".js")%string)) /\
  (format e = "esm" \/ format e = "iife" ->
   exists g x,
     obj_get_own (group_entries host entries) key = Some (VObj g) /\
     obj_get_own g "module" = Some (VStr (key ++ x)%string) /\
     (x = ".mjs" \/ x = ".js")).
Proof.
  intros Hin key.
  destruct (group_entries_condition_from host entries [] e Hin) as [Hcjs Hmod].
  split.
  - intros Hfmt. destruct (Hcjs Hfmt) as [g [x [H1 [H2 [<- | []]]]]].
    exists g. auto.
  - intros Hfmt. destruct (Hmod Hfmt) as [g [x [H1 [H2 Hx]]]].
    exists g, x. repeat split; auto.
    destruct Hx as [<- | [<- | []]]; auto.
Qed.

Lemma known_entry_leaves_condition_witness :
  let entries := [ mk_entry "./src/a.ts" "cjs"; mk_entry "./src/b.ts" "esm";
                   mk_entry "./src/a.ts" "iife" ] in
  In (mk_entry "./src/a.ts" "cjs") entries /\
  exists g,
    obj_get_own (group_entries Posix entries) "./dist/a" = Some (VObj g) /\
    obj_get_own g "require" = Some (VStr "./dist/a.js").
Proof.
  intros entries.
  assert (Hin : In (mk_entry "./src/a.ts" "cjs") entries) by (simpl; auto).
  split; [exact Hin |].
  destruct (known_entry_leaves_condition Posix entries _ Hin) as [Hcjs _].
  exact (Hcjs eq_refl).
Defined.

(** ** Keys of the export map *)

Lemma obj_keys_insert_index_In (o : obj) (n : N) (k x : string) (v : value) :
  In x (obj_keys (obj_insert_index o n k v)) -> x = k \/ In x (obj_keys o).
Proof.
  induction o as [| [k0 v0] r IH]; simpl.
  - intros [<- | []]. auto.
  - destruct (array_index k0) as [n0 |]; [destruct (n <? n0)%N |]; simpl;
      intros H; intuition auto.
Qed.

Lemma obj_keys_insert_index_NoDup (o : obj) (n : N) (k : string) (v : value) :
  ~ In k (obj_keys o) -> NoDup (obj_keys o) ->
  NoDup (obj_keys (obj_insert_index o n k v)).
Proof.
  induction o as [| [k0 v0] r IH]; simpl; intros Hnot Hnd.
  - constructor; [tauto | constructor].
  - assert (Hcons : NoDup (k :: k0 :: obj_keys r))
      by (constructor; [simpl; tauto | exact Hnd]).
    destruct (array_index k0) as [n0 |]; [destruct (n <? n0)%N |]; simpl;
      try exact Hcons.
    inversion Hnd as [| ? ? Hk0 Hr]; subst.
    constructor.
    + intros Hin. apply obj_keys_insert_index_In in Hin.
      destruct Hin as [-> | Hin]; tauto.
    + apply IH; tauto.
Qed.

Lemma NoDup_snoc (l : list string) (k : string) :
  ~ In k l -> NoDup l -> NoDup (l ++ [k]).
Proof.
  induction l as [| x l IH]; simpl; intros Hnot Hnd.
  - constructor; [tauto | constructor].
  - inversion Hnd as [| ? ? Hx Hl]; subst. constructor.
    + intros Hin. apply in_app_or in Hin. simpl in Hin. intuition auto.
    + apply IH; tauto.
Qed.

(** An assignment never makes a key occur twice. *)
Lemma obj_set_NoDup (o : obj) (k : string) (v : value) :
  NoDup (obj_keys o) -> NoDup (obj_keys (obj_set o k v)).
Proof.
  intros Hnd. unfold obj_set, obj_has_own.
  destruct (obj_get_own o k) eqn:Hget.
  - rewrite obj_keys_replace. exact Hnd.
  - pose proof (obj_get_own_not_In_keys o k Hget) as Hnot.
    destruct (array_index k).
    + apply obj_keys_insert_index_NoDup; assumption.
    + unfold obj_keys. rewrite map_app. apply NoDup_snoc; assumption.
Qed.

Lemma spread_NoDup (target : obj) (source : value) :
  NoDup (obj_keys target) -> NoDup (obj_keys (spread target source)).
Proof.
  unfold spread. generalize (obj_keys (own_enumerable source)) as ks.
  intros ks. revert target.
  induction ks as [| k ks IH]; intros target Hnd; simpl; [exact Hnd |].
  apply IH. destruct (obj_get_own (own_enumerable source) k); [| exact Hnd].
  apply obj_set_NoDup. exact Hnd.
Qed.

Lemma group_entries_NoDup (host : platform) (entries : list Entry) :
  NoDup (obj_keys (group_entries host entries)).
Proof.
  unfold group_entries.
  assert (H : forall acc, NoDup (obj_keys acc) ->
            NoDup (obj_keys (fold_left (group_entry host) entries acc))).
  { induction entries as [| e es IH]; intros acc Hnd; simpl; [exact Hnd |].
    apply IH. unfold group_entry.
    destruct (negb (truthy (js_get formatToType (format e)))); [exact Hnd |].
    apply obj_set_NoDup. exact Hnd. }
  apply H. constructor.
Qed.

(** X14: the export map that is assigned has no key twice, holds
    ['./package.json'], and each of its keys starts with [./], on either
    host and whatever the entries are: each is a subpath as the
    [exports] field wants them. *)
Theorem export_map_keys (host : platform) (entries : list Entry) :
  let exports := synthesized_exports host entries in
  NoDup (obj_keys exports) /\
  In "./package.json" (obj_keys exports) /\
  Forall (fun k => String.prefix "./" k = true) (obj_keys exports).
Proof.
  intros exports. split; [| split].
  - apply spread_NoDup. simpl. constructor; [tauto | constructor].
  - apply obj_keys_get_own. unfold exports, synthesized_exports.
    rewrite obj_get_own_spread. cbn [own_enumerable].
    destruct (obj_get_own (group_entries host entries) "./package.json"); discriminate.
  - apply Forall_forall. intros k Hin.
    apply obj_keys_get_own in Hin. unfold exports, synthesized_exports in Hin.
    rewrite obj_get_own_spread in Hin. cbn [own_enumerable] in Hin.
    destruct (obj_get_own (group_entries host entries) k) as [v |] eqn:Hgrouped.
    + apply obj_get_own_In_keys in Hgrouped.
      destruct (group_entries_keys host entries k Hgrouped) as [e [_ ->]].
      destruct (output_key_dot_slash host (file e)) as [rest ->].
      destruct rest; reflexivity.
    + cbn [obj_get_own] in Hin.
      destruct (String.eqb_spec "./package.json" k) as [<- | _];
        [reflexivity | congruence].
Qed.

(** ** The previous [exports] is not read *)

Lemma obj_replace_replace (o : obj) (k : string) (a e : value) :
  obj_replace (obj_replace o k a) k e = obj_replace o k e.
Proof.
  induction o as [| [k0 v0] r IH]; simpl; [reflexivity |].
  destruct (String.eqb k0 k) eqn:Hk; simpl; rewrite Hk; [reflexivity |].
  rewrite IH. reflexivity.
Qed.

Lemma obj_replace_inserted (o : obj) (n : N) (k : string) (a e : value) :
  obj_get_own o k = None ->
  obj_replace (obj_insert_index o n k a) k e = obj_insert_index o n k e.
Proof.
  induction o as [| [k0 v0] r IH]; simpl.
  - rewrite String.eqb_refl. reflexivity.
  - destruct (String.eqb k0 k) eqn:Hk; [discriminate |]. intros Hnone.
    destruct (array_index k0) as [n0 |]; [destruct (n <? n0)%N |]; simpl;
      rewrite ?String.eqb_refl, ?Hk; try reflexivity.
    rewrite (IH Hnone). reflexivity.
Qed.

Lemma obj_replace_appended (o : obj) (k : string) (a e : value) :
  obj_get_own o k = None ->
  obj_replace (o ++ [(k, a)]) k e = o ++ [(k, e)].
Proof.
  induction o as [| [k0 v0] r IH]; simpl.
  - rewrite String.eqb_refl. reflexivity.
  - destruct (String.eqb k0 k) eqn:Hk; [discriminate |]. intros Hnone.
    rewrite (IH Hnone). reflexivity.
Qed.

(** A second assignment to a key wipes out the first. *)
Lemma obj_set_set (o : obj) (k : string) (a e : value) :
  obj_set (obj_set o k a) k e = obj_set o k e.
Proof.
  unfold obj_set at 1. unfold obj_has_own. rewrite obj_get_own_set_same.
  unfold obj_set, obj_has_own.
  destruct (obj_get_own o k) eqn:Hget.
  - apply obj_replace_replace.
  - destruct (array_index k).
    + apply obj_replace_inserted. exact Hget.
    + apply obj_replace_appended. exact Hget.
Qed.

(** X15: two manifests that differ only in the value of [exports], both
    passing the gate, come out the same and are written as the same text:
    whatever was under [exports] before is lost. *)
Theorem previous_exports_ignored (h : Host) (pkg : obj) (a b : value)
    (entries : list Entry) :
  exports_gate (obj_set pkg "exports" a) = true ->
  exports_gate (obj_set pkg "exports" b) = true ->
  updatePackageJson h (obj_set pkg "exports" a) entries =
  updatePackageJson h (obj_set pkg "exports" b) entries.
Proof.
  intros Ha Hb. unfold updatePackageJson. rewrite Ha, Hb, !obj_set_set. reflexivity.
Qed.

Lemma previous_exports_ignored_witness :
  let h := example_host Posix [] VUndefined [] no_calls in
  let entries := [mk_entry "./src/index.ts" "esm"] in
  let a := VObj [("./hand-written", VStr "./hand-written.js")] in
  exports_gate (obj_set example_manifest "exports" a) = true /\
  exports_gate (obj_set example_manifest "exports" VNull) = true /\
  updatePackageJson h (obj_set example_manifest "exports" a) entries =
  updatePackageJson h (obj_set example_manifest "exports" VNull) entries.
Proof.
  intros h entries a.
  assert (Ha : exports_gate (obj_set example_manifest "exports" a) = true) by reflexivity.
  assert (Hb : exports_gate (obj_set example_manifest "exports" VNull) = true)
    by reflexivity.
  split; [exact Ha |]. split; [exact Hb |].
  exact (previous_exports_ignored h example_manifest a VNull entries Ha Hb).
Defined.

(** ** The runtime-globals bundles in the export map *)

Lemma group_entry_other (host : platform) (acc : obj) (e : Entry) (key : string) :
  key <> output_key host (file e) ->
  obj_get_own (group_entry host acc e) key = obj_get_own acc key.
Proof.
  intros Hne. unfold group_entry.
  destruct (negb (truthy (js_get formatToType (format e)))); [reflexivity |].
  apply obj_get_own_set_other. exact Hne.
Qed.

Lemma prebuild_keys_differ (host : platform) (f1 f2 : string) :
  In f1 prebuild_files -> In f2 prebuild_files -> f1 <> f2 ->
  output_key host f1 <> output_key host f2.
Proof.
  intros H1 H2 Hne.
  destruct H1 as [<- | [<- | [<- | []]]];
    destruct H2 as [<- | [<- | [<- | []]]];
    try congruence; destruct host; vm_compute; discriminate.
Qed.

(** X16: the three runtime-globals files are grouped after the descriptors'
    entries, so whatever those are, the map that is assigned holds for
    each of the three a group whose [module] is its key followed by
    [.js]. *)
Theorem prebuild_bundles_exported (host : platform) (entries : list Entry) (f : string) :
  In f prebuild_files ->
  let key := output_key host f in
  exists g,
    obj_get_own (synthesized_exports host (manifest_entries entries)) key
      = Some (VObj g) /\
    obj_get_own g "module" = Some (VStr (key ++ ".js")%string).
Proof.
  intros Hin key.
  assert (Hgrouped : has_condition (group_entries host (manifest_entries entries))
                       key "module" [".js"]).
  { unfold group_entries, manifest_entries. rewrite fold_left_app.
    set (acc := fold_left (group_entry host) entries []).
    cbn [map prebuild_files fold_left].
    assert (Hset : forall acc' f', has_condition
                     (group_entry host acc' (mk_entry f' "iife"))
                     (output_key host f') "module" [".js"]).
    { intros acc' f'.
      apply (group_entry_sets_condition host acc' f' "iife"). simpl; auto. }
    assert (Hkeep : forall acc' f', In f' prebuild_files -> f <> f' ->
                     has_condition acc' key "module" [".js"] ->
                     has_condition (group_entry host acc' (mk_entry f' "iife"))
                       key "module" [".js"]).
    { intros acc' f' Hf' Hne [g [x [H1 [H2 H3]]]]. exists g, x.
      split; [| auto].
      rewrite group_entry_other; [exact H1 |].
      apply prebuild_keys_differ; assumption. }
    destruct Hin as [<- | [<- | [<- | []]]].
    - apply Hkeep; [simpl; auto | discriminate |].
      apply Hkeep; [simpl; auto | discriminate |]. apply Hset.
    - apply Hkeep; [simpl; auto | discriminate |]. apply Hset.
    - apply Hset. }
  destruct Hgrouped as [g [x [H1 [H2 [<- | []]]]]].
  exists g. split; [| exact H2].
  unfold synthesized_exports. rewrite obj_get_own_spread.
  cbn [own_enumerable]. rewrite H1. reflexivity.
Qed.

Lemma prebuild_bundles_exported_witness :
  let entries := [ mk_entry "./src/prebuild/manager/runtime.ts" "esm" ] in
  In "./src/prebuild/manager/runtime.ts" prebuild_files /\
  exists g,
    obj_get_own (synthesized_exports Posix (manifest_entries entries))
      "./dist/prebuild/manager/runtime" = Some (VObj g) /\
    obj_get_own g "module" = Some (VStr "./dist/prebuild/manager/runtime.js").
Proof.
  intros entries.
  assert (Hin : In "./src/prebuild/manager/runtime.ts" prebuild_files) by (simpl; auto).
  split; [exact Hin |].
  exact (prebuild_bundles_exported Posix entries _ Hin).
Defined.
